(** * Tamil page prediction: the two matchers of [app.py] and [app_simple.py]

    A shallow embedding of the query-to-page matching engine:

    - [Simple]: [SimpleTamilPagePredictor] of [app_simple.py], the lexical
      matcher (substring overlap between query words and keywords);
    - [Embedding]: [TamilPagePredictor] of [app.py], the embedding matcher
      (cosine similarity between sentence embeddings).

    Python values are modelled as follows.  A [str] is a [string]; a list is
    a [list]; a [dict] is an association list in insertion order (Python
    dictionaries iterate in insertion order, and the lexical matcher's
    tie-break depends on it); a raised exception is the [Raise] case of
    [result].  A JSON object of the knowledge base is a record whose fields
    are [option]s: [None] is an absent key. *)

From Stdlib Require Import List String Ascii Bool Arith Lia ZArith QArith.
From Stdlib Require Import Permutation Sorted.
Import ListNotations.

Set Implicit Arguments.
Local Open Scope string_scope.
Local Open Scope list_scope.
Local Open Scope nat_scope.

(** ** Python built-ins *)

(** The exceptions the two predictors can raise: [d[k]] on an absent key,
    [l[i]] out of range, and scikit-learn's input validation. *)
Inductive exn : Type :=
| KeyError (key : string)
| IndexError
| ValueError.

Inductive result (A : Type) : Type :=
| Ok (a : A)
| Raise (e : exn).

Arguments Ok {A} a.
Arguments Raise {A} e.

Definition bind {A B : Type} (r : result A) (k : A -> result B) : result B :=
  match r with
  | Ok a => k a
  | Raise e => Raise e
  end.

Notation "x <- r ;; k" := (bind r (fun x => k))
  (at level 61, r at next level, right associativity).

(** [for x in l: body], where the body may raise. *)
Fixpoint for_each {A S : Type} (body : S -> A -> result S) (l : list A) (s : S)
  : result S :=
  match l with
  | [] => Ok s
  | x :: l' => s' <- body s x ;; for_each body l' s'
  end.

(** [sub in s] on strings: [sub] occurs in [s] as a contiguous substring. *)
Fixpoint str_in (sub s : string) : bool :=
  prefix sub s ||
  match s with
  | EmptyString => false
  | String _ s' => str_in sub s'
  end.

(** *** Dictionaries, in insertion order *)

Definition dict (V : Type) : Type := list (string * V).

Fixpoint dict_get {V : Type} (d : dict V) (k : string) : option V :=
  match d with
  | [] => None
  | (k', v) :: d' => if String.eqb k' k then Some v else dict_get d' k
  end.

(** [k in d] *)
Definition dict_mem {V : Type} (d : dict V) (k : string) : bool :=
  match dict_get d k with
  | Some _ => true
  | None => false
  end.

(** [d[k] = v]: a present key keeps its position, a new key goes last. *)
Fixpoint dict_set {V : Type} (d : dict V) (k : string) (v : V) : dict V :=
  match d with
  | [] => [(k, v)]
  | (k', v') :: d' =>
      if String.eqb k' k then (k', v) :: d' else (k', v') :: dict_set d' k v
  end.

(** [d[k]] as an expression; raises [KeyError] on an absent key. *)
Definition dict_getitem {V : Type} (d : dict V) (k : string) : result V :=
  match dict_get d k with
  | Some v => Ok v
  | None => Raise (KeyError k)
  end.

Definition dict_keys {V : Type} (d : dict V) : list string := map fst d.

(** ** The knowledge base ([TamilKnowledgeBase.json]) *)

Record Feature : Type := {
  page_name : option string;
  keywords : option (list string);
  description : option string;
  action_message : option string
}.

Record KnowledgeBase : Type := {
  features : list Feature
}.

(** [feature['page_name']] and [feature['keywords']] *)
Definition get_page_name (feature : Feature) : result string :=
  match page_name feature with
  | Some p => Ok p
  | None => Raise (KeyError "page_name")
  end.

Definition get_keywords (feature : Feature) : result (list string) :=
  match keywords feature with
  | Some ks => Ok ks
  | None => Raise (KeyError "keywords")
  end.

(** [get_page_description], the same method in both predictors: the
    description of the first feature of that name, [''] when it has none or
    no feature has the name. *)
Fixpoint get_page_description_in (fs : list Feature) (name : string)
  : result string :=
  match fs with
  | [] => Ok ""
  | feature :: fs' =>
      p <- get_page_name feature ;;
      if String.eqb p name
      then Ok (match description feature with Some d => d | None => "" end)
      else get_page_description_in fs' name
  end.

Definition get_page_description (kb : KnowledgeBase) (name : string)
  : result string :=
  get_page_description_in (features kb) name.

(** One entry of the list [predict_page] returns. *)
Record Prediction (score : Type) : Type := {
  r_page_name : string;
  r_keyword : string;
  r_similarity_score : score;
  r_description : string
}.

(** [str.lower()] and [str.split()] follow the Unicode tables of the Python
    run time.  The matchers only call them, so they are an interface here;
    [ascii_str] below is the instance that agrees with Python on ASCII
    text. *)
Class PyStr : Type := {
  str_lower : string -> string;
  str_split : string -> list string
}.

(** [sorted(items, key=lambda x: x[1], reverse=True)]: descending by the
    second component, and stable (with [reverse=True] too, items of equal
    key keep their original order). *)
Fixpoint insert_desc {A : Type} (x : A * nat) (l : list (A * nat))
  : list (A * nat) :=
  match l with
  | [] => [x]
  | y :: l' => if snd x <? snd y then y :: insert_desc x l' else x :: l
  end.

Fixpoint sorted_desc {A : Type} (l : list (A * nat)) : list (A * nat) :=
  match l with
  | [] => []
  | x :: l' => insert_desc x (sorted_desc l')
  end.

(** ** The lexical matcher: [SimpleTamilPagePredictor] ([app_simple.py]) *)

Module Simple.

Record SimpleTamilPagePredictor : Type := {
  knowledge_base : KnowledgeBase;
  keyword_to_page : dict (list string);
  page_keywords : dict (list string)
}.

(** The two statements of the inner loop of [prepare_keyword_index]:
    [if keyword not in d: d[keyword] = []] and
    [d[keyword].append(page_name)] (the key is present by then). *)
Definition add_keyword (d : dict (list string)) (page keyword : string)
  : dict (list string) :=
  let d1 := if dict_mem d keyword then d else dict_set d keyword [] in
  match dict_get d1 keyword with
  | Some pages => dict_set d1 keyword (pages ++ [page])
  | None => d1
  end.

(** The body of [for feature in self.knowledge_base['features']], on the
    pair [(keyword_to_page, page_keywords)]. *)
Definition index_feature (st : dict (list string) * dict (list string))
  (feature : Feature) : result (dict (list string) * dict (list string)) :=
  p <- get_page_name feature ;;
  ks <- get_keywords feature ;;
  Ok (fold_left (fun d keyword => add_keyword d p keyword) ks (fst st),
      dict_set (snd st) p ks).

(** [prepare_keyword_index]: both dictionaries are reset, then filled from
    the knowledge base; a feature without [page_name] or [keywords] raises
    [KeyError] and the method does not return. *)
Definition prepare_keyword_index (self : SimpleTamilPagePredictor)
  : result SimpleTamilPagePredictor :=
  st <- for_each index_feature (features (knowledge_base self)) ([], []) ;;
  Ok {| knowledge_base := knowledge_base self;
        keyword_to_page := fst st;
        page_keywords := snd st |}.

(** [__init__], the knowledge base already parsed.  The module binds
    [predictor = SimpleTamilPagePredictor()]: when the constructor raises
    there is no predictor object at all. *)
Definition init (kb : KnowledgeBase) : result SimpleTamilPagePredictor :=
  prepare_keyword_index
    {| knowledge_base := kb; keyword_to_page := []; page_keywords := [] |}.

Section Predict.
Context {py : PyStr}.

(** The test of the scoring loop:
    [word in keyword.lower() or keyword.lower() in word]. *)
Definition word_matches (word keyword : string) : bool :=
  str_in word (str_lower keyword) || str_in (str_lower keyword) word.

(** [if page not in page_scores: page_scores[page] = 0] followed by
    [page_scores[page] += 1]. *)
Definition incr (page_scores : dict nat) (page : string) : dict nat :=
  let d1 := if dict_mem page_scores page then page_scores
            else dict_set page_scores page 0 in
  match dict_get d1 page with
  | Some n => dict_set d1 page (n + 1)
  | None => d1
  end.

(** The scoring loop: for every query word, for every item of
    [keyword_to_page] in insertion order, one increment per listed page. *)
Definition score_pages (query_words : list string) (k2p : dict (list string))
  : dict nat :=
  fold_left
    (fun page_scores word =>
       fold_left
         (fun page_scores (item : string * list string) =>
            if word_matches word (fst item)
            then fold_left incr (snd item) page_scores
            else page_scores)
         k2p page_scores)
    query_words [].

(** [if not page_scores: page_scores = {page: 0 for page in page_keywords}] *)
Definition with_fallback (page_scores : dict nat) (pk : dict (list string))
  : dict nat :=
  match page_scores with
  | [] => map (fun page => (page, 0)) (dict_keys pk)
  | _ :: _ => page_scores
  end.

(** The search for the reported keyword: the first keyword of the page that
    contains some query word, [""] when the loop ends without a [break];
    then the fall-back to the page's first keyword when the result is falsy
    and the page has a keyword. *)
Definition matching_keyword (query_words keywords : list string) : string :=
  let found :=
    match find (fun keyword =>
                  existsb (fun word => str_in word (str_lower keyword))
                          query_words) keywords with
    | Some keyword => keyword
    | None => ""
    end in
  match keywords with
  | first :: _ => if String.eqb found "" then first else found
  | [] => found
  end.

(** [score / max(len(query_words), 1)], as an exact fraction. *)
Definition normalize (score n_words : nat) : Q :=
  Qmake (Z.of_nat score) (Pos.of_nat (Nat.max n_words 1)).

(** The body of [for page_name, score in sorted_pages[:5]]. *)
Definition make_result (self : SimpleTamilPagePredictor)
  (query_words : list string) (item : string * nat)
  : result (Prediction Q) :=
  ks <- dict_getitem (page_keywords self) (fst item) ;;
  d <- get_page_description (knowledge_base self) (fst item) ;;
  Ok {| r_page_name := fst item;
        r_keyword := matching_keyword query_words ks;
        r_similarity_score := normalize (snd item) (List.length query_words);
        r_description := d |}.

Definition query_words_of (query_text : string) : list string :=
  str_split (str_lower query_text).

Definition predict_page (self : SimpleTamilPagePredictor)
  (query_text : string) : result (list (Prediction Q)) :=
  let query_words := query_words_of query_text in
  let page_scores :=
    with_fallback (score_pages query_words (keyword_to_page self))
                  (page_keywords self) in
  let sorted_pages := sorted_desc page_scores in
  for_each
    (fun results item =>
       r <- make_result self query_words item ;; Ok (results ++ [r]))
    (firstn 5 sorted_pages) [].

End Predict.

End Simple.

(** ** The embedding matcher: [TamilPagePredictor] ([app.py]) *)

(** The sentence-transformer model and the similarity scores are external:
    [encode_text] is the vector [model.encode] gives one text (the same
    text always gives the same vector), [cosine] the entry scikit-learn's
    [cosine_similarity] computes for two vectors, [sim_ltb] the strict
    order [<] on the floating-point scores. *)
Class SentenceModel : Type := {
  embedding : Type;
  similarity : Type;
  encode_text : string -> embedding;
  cosine : embedding -> embedding -> similarity;
  sim_ltb : similarity -> similarity -> bool
}.

Module Embedding.

Section Predictor.
Context {model : SentenceModel}.

Record TamilPagePredictor : Type := {
  knowledge_base : KnowledgeBase;
  candidates : list string;
  candidate_texts : list string;
  candidate_embeddings : option (list embedding)
}.

(** [self.model.encode(texts)] on a list of texts: one vector per text. *)
Definition encode (texts : list string) : list embedding :=
  map encode_text texts.

(** The body of [for feature in self.knowledge_base['features']], on the
    pair [(candidates, candidate_texts)]: one candidate per keyword. *)
Definition add_feature (st : list string * list string) (feature : Feature)
  : result (list string * list string) :=
  p <- get_page_name feature ;;
  ks <- get_keywords feature ;;
  Ok (fold_left
        (fun (st : list string * list string) keyword =>
           (fst st ++ [p], snd st ++ [keyword]))
        ks st).

(** [prepare_candidates]: appends to the two lists of [self], then encodes
    all candidate texts. *)
Definition prepare_candidates (self : TamilPagePredictor)
  : result TamilPagePredictor :=
  st <- for_each add_feature (features (knowledge_base self))
                 (candidates self, candidate_texts self) ;;
  Ok {| knowledge_base := knowledge_base self;
        candidates := fst st;
        candidate_texts := snd st;
        candidate_embeddings := Some (encode (snd st)) |}.

(** [__init__], the model and the knowledge base already loaded. *)
Definition init (kb : KnowledgeBase) : result TamilPagePredictor :=
  prepare_candidates
    {| knowledge_base := kb; candidates := []; candidate_texts := [];
       candidate_embeddings := None |}.

(** [cosine_similarity(query_embedding, candidate_embeddings)[0]], the query
    being the only row of the first argument.  scikit-learn validates its
    inputs and raises [ValueError] on an array without rows, which is what
    [model.encode([])] returns, and on [None]. *)
Definition cosine_similarity (q : embedding) (ys : option (list embedding))
  : result (list similarity) :=
  match ys with
  | None | Some [] => Raise ValueError
  | Some (y :: ys') => Ok (map (cosine q) (y :: ys'))
  end.

(** [np.argsort(row)]: the indices of [row] in ascending order of their
    entries; entries that compare equal keep the order of their indices. *)
Fixpoint insert_asc (x : nat * similarity) (l : list (nat * similarity))
  : list (nat * similarity) :=
  match l with
  | [] => [x]
  | y :: l' => if sim_ltb (snd y) (snd x) then y :: insert_asc x l' else x :: l
  end.

Fixpoint sort_asc (l : list (nat * similarity)) : list (nat * similarity) :=
  match l with
  | [] => []
  | x :: l' => insert_asc x (sort_asc l')
  end.

Definition argsort (row : list similarity) : list nat :=
  map fst (sort_asc (combine (seq 0 (List.length row)) row)).

(** [l[idx]] *)
Definition getitem {A : Type} (l : list A) (idx : nat) : result A :=
  match nth_error l idx with
  | Some a => Ok a
  | None => Raise IndexError
  end.

(** [np.argsort(similarities[0])[::-1][:5]] *)
Definition top_indices (row : list similarity) : list nat :=
  firstn 5 (rev (argsort row)).

(** The body of [for idx in top_indices]. *)
Definition make_result (self : TamilPagePredictor) (row : list similarity)
  (idx : nat) : result (Prediction similarity) :=
  p <- getitem (candidates self) idx ;;
  k <- getitem (candidate_texts self) idx ;;
  s <- getitem row idx ;;
  d <- get_page_description (knowledge_base self) p ;;
  Ok {| r_page_name := p;
        r_keyword := k;
        r_similarity_score := s;
        r_description := d |}.

Definition predict_page (self : TamilPagePredictor) (query_text : string)
  : result (list (Prediction similarity)) :=
  let query_embedding := encode_text query_text in
  row <- cosine_similarity query_embedding (candidate_embeddings self) ;;
  for_each
    (fun results idx => r <- make_result self row idx ;; Ok (results ++ [r]))
    (top_indices row) [].

End Predictor.

End Embedding.

(** ** The routes of the two applications *)

(** [str.strip()], by the Unicode tables like [str.lower()]. *)
Class PyStrip : Type := {
  str_strip : string -> string
}.

(** A value of the JSON body of a request: a string, or anything else (a
    number, a boolean, [null], an array, an object), which has no
    [strip]. *)
Inductive json : Type :=
| JString (s : string)
| JOther.

(** What a route's [try] block can catch: an exception of the predictor,
    or the [AttributeError] of [.strip()] on a value that is no string. *)
Inductive handler_exn : Type :=
| Engine (e : exn)
| AttributeError.

(** The JSON document a [/predict] route returns: [{'error': message}]
    with one of the fixed messages, [{'error': str(e)}] for a caught
    exception, or the query with its predictions and top prediction. *)
Inductive body (score : Type) : Type :=
| ErrorBody (message : string)
| ExceptionBody (e : handler_exn)
| PredictionBody (query : string) (predictions : list (Prediction score))
                 (top_prediction : option (Prediction score)).

Arguments ErrorBody {score} message.
Arguments ExceptionBody {score} e.
Arguments PredictionBody {score} query predictions top_prediction.

(** A response: the document and the HTTP status. *)
Definition response (score : Type) : Type := (body score * nat)%type.

(** The [/predict] routes are the same text in [app.py] and
    [app_simple.py]; [predict_page] stands for
    [predictor.predict_page] of the module's predictor. *)
Section PredictRoutes.
Context {strip : PyStrip} {score : Type}.
Variable predict_page : string -> result (list (Prediction score)).

(** The common end of both routes: the call of [predict_page] inside
    [try], [predictions[0] if predictions else None], and the [except]
    branch. *)
Definition respond (query_text : string) : response score :=
  match predict_page query_text with
  | Ok predictions =>
      (PredictionBody query_text predictions (hd_error predictions), 200)
  | Raise e => (ExceptionBody (Engine e), 500)
  end.

(** [predict], the POST route; [data] is [request.get_json()]: [None] or
    a JSON object. *)
Definition predict (data : option (dict json)) : response score :=
  match data with
  | None => (ErrorBody "Query text is required", 400)
  | Some d =>
      match d with
      | [] => (ErrorBody "Query text is required", 400)
      | _ :: _ =>
          match dict_get d "query" with
          | None => (ErrorBody "Query text is required", 400)
          | Some JOther => (ExceptionBody AttributeError, 500)
          | Some (JString query_text) =>
              if String.eqb (str_strip query_text) ""
              then (ErrorBody "Query text cannot be empty", 400)
              else respond query_text
          end
      end
  end.

(** [predict_get], the GET route; [args] is [request.args]. *)
Definition predict_get (args : dict string) : response score :=
  let query_text :=
    match dict_get args "query" with
    | Some q => q
    | None => ""
    end in
  if String.eqb query_text ""
  then (ErrorBody "Query parameter is required", 400)
  else respond query_text.

End PredictRoutes.

(** One entry of the list [get_pages] returns. *)
Record PageInfo : Type := {
  pi_page_name : string;
  pi_keywords : list string;
  pi_description : string;
  pi_action_message : string
}.

(** [get_pages] on [predictor.knowledge_base]: the route has no [try], a
    missing key raises. *)
Definition get_pages (kb : KnowledgeBase) : result (list PageInfo) :=
  for_each
    (fun pages feature =>
       p <- get_page_name feature ;;
       ks <- get_keywords feature ;;
       Ok (pages ++
           [{| pi_page_name := p;
               pi_keywords := ks;
               pi_description :=
                 match description feature with Some d => d | None => "" end;
               pi_action_message :=
                 match action_message feature with
                 | Some m => m
                 | None => ""
                 end |}]))
    (features kb) [].

(** [[len(feature['keywords']) for feature in features]] *)
Definition keyword_lengths (fs : list Feature) : result (list nat) :=
  for_each (fun counts feature =>
              ks <- get_keywords feature ;; Ok (counts ++ [List.length ks]))
           fs [].

(** [min(l)] and [max(l)] on a list the caller has found non-empty. *)
Definition py_min (l : list nat) : nat :=
  match l with
  | [] => 0
  | x :: l' => fold_left Nat.min l' x
  end.

Definition py_max (l : list nat) : nat :=
  match l with
  | [] => 0
  | x :: l' => fold_left Nat.max l' x
  end.

(** [np.median(l)]: the middle entry of the sorted list, or the mean of
    the two middle entries. *)
Fixpoint insert_nat (x : nat) (l : list nat) : list nat :=
  match l with
  | [] => [x]
  | y :: l' => if x <=? y then x :: l else y :: insert_nat x l'
  end.

Fixpoint sort_nat (l : list nat) : list nat :=
  match l with
  | [] => []
  | x :: l' => insert_nat x (sort_nat l')
  end.

Definition np_median (l : list nat) : Q :=
  let s := sort_nat l in
  let n := List.length s in
  if Nat.even n
  then Qmake (Z.of_nat (nth (n / 2 - 1) s 0 + nth (n / 2) s 0)) 2
  else inject_Z (Z.of_nat (nth (n / 2) s 0)).

(** The document [get_stats] returns. *)
Record Stats : Type := {
  total_pages : nat;
  total_keywords : nat;
  avg_keywords_per_page : Q;
  kd_min : nat;
  kd_max : nat;
  kd_median : Q
}.

(** [get_stats] on [predictor.knowledge_base]; the guards [if total_pages
    > 0] and [if keyword_counts] give 0 on an empty catalog. *)
Definition get_stats (kb : KnowledgeBase) : result Stats :=
  let total_pages := List.length (features kb) in
  lengths <- keyword_lengths (features kb) ;;
  let total_keywords := list_sum lengths in
  keyword_counts <- keyword_lengths (features kb) ;;
  Ok {| total_pages := total_pages;
        total_keywords := total_keywords;
        avg_keywords_per_page :=
          if 0 <? total_pages
          then Qmake (Z.of_nat total_keywords) (Pos.of_nat total_pages)
          else 0%Q;
        kd_min := match keyword_counts with
                  | [] => 0
                  | _ :: _ => py_min keyword_counts
                  end;
        kd_max := match keyword_counts with
                  | [] => 0
                  | _ :: _ => py_max keyword_counts
                  end;
        kd_median := match keyword_counts with
                     | [] => 0%Q
                     | _ :: _ => np_median keyword_counts
                     end |}.

(** ** Instances for concrete runs *)

(** ASCII case folding and whitespace splitting: what [str.lower()] and
    [str.split()] do on ASCII text. *)
Definition ascii_lower_char (c : ascii) : ascii :=
  let n := nat_of_ascii c in
  if (65 <=? n) && (n <=? 90) then ascii_of_nat (n + 32) else c.

Fixpoint ascii_lower (s : string) : string :=
  match s with
  | EmptyString => EmptyString
  | String c s' => String (ascii_lower_char c) (ascii_lower s')
  end.

Definition is_space (c : ascii) : bool :=
  let n := nat_of_ascii c in
  (n =? 32) || ((9 <=? n) && (n <=? 13)) || ((28 <=? n) && (n <=? 31)).

(** [split_from cur s]: the words of [s], [cur] being the characters of the
    current word read so far. *)
Fixpoint split_from (cur : string) (s : string) : list string :=
  let flush := match cur with
               | EmptyString => []
               | String _ _ => [cur]
               end in
  match s with
  | EmptyString => flush
  | String c s' =>
      if is_space c then flush ++ split_from EmptyString s'
      else split_from (String.append cur (String c EmptyString)) s'
  end.

Definition ascii_split (s : string) : list string := split_from EmptyString s.

Definition ascii_str : PyStr :=
  {| str_lower := ascii_lower; str_split := ascii_split |}.

(** A model for concrete runs of the embedding matcher: a text is embedded
    as its length, and the score of two embeddings is minus their distance,
    so that equal lengths score highest. *)
Definition length_model : SentenceModel :=
  {| embedding := Z;
     similarity := Z;
     encode_text := fun s => Z.of_nat (String.length s);
     cosine := fun a b => (- Z.abs (a - b))%Z;
     sim_ltb := Z.ltb |}.

(** Shorthand for a feature of the knowledge base with both required keys
    and a description. *)
Definition feature_of (name : string) (ks : list string) : Feature :=
  {| page_name := Some name; keywords := Some ks;
     description := Some (String.append "about " name);
     action_message := None |}.

(** [str.strip()] on ASCII text. *)
Fixpoint strip_left (s : string) : string :=
  match s with
  | EmptyString => EmptyString
  | String c s' => if is_space c then strip_left s' else s
  end.

Fixpoint rev_string (acc s : string) : string :=
  match s with
  | EmptyString => acc
  | String c s' => rev_string (String c acc) s'
  end.

Definition ascii_strip_fun (s : string) : string :=
  rev_string EmptyString
    (strip_left (rev_string EmptyString (strip_left s))).

Definition ascii_strip : PyStrip := {| str_strip := ascii_strip_fun |}.

(** ** Notions of the specification *)

(** The pages present in the catalog: the names of its features. *)
Definition page_names (kb : KnowledgeBase) : list string :=
  flat_map (fun f => match page_name f with Some p => [p] | None => [] end)
           (features kb).

Definition has_name (f : Feature) (page : string) : bool :=
  match page_name f with
  | Some p => String.eqb p page
  | None => false
  end.

Definition keywords_of (f : Feature) : list string :=
  match keywords f with
  | Some ks => ks
  | None => []
  end.

(** The keyword lists of the features named [page], one after the other:
    every keyword occurrence that belongs to the page. *)
Definition page_keyword_occurrences (kb : KnowledgeBase) (page : string)
  : list string :=
  flat_map (fun f => if has_name f page then keywords_of f else [])
           (features kb).

(** The first occurrence of every element, in order: the keys of a
    dictionary filled from the list. *)
Fixpoint first_occurrences (seen l : list string) : list string :=
  match l with
  | [] => []
  | x :: l' =>
      if existsb (String.eqb x) seen then first_occurrences seen l'
      else x :: first_occurrences (seen ++ [x]) l'
  end.

Section LexicalSpec.
Context {py : PyStr}.

(** Substring containment between a query word and a case-folded keyword,
    in either direction. *)
Definition contained (word keyword : string) : bool :=
  str_in word (str_lower keyword) || str_in (str_lower keyword) word.

(** The raw hit count of a page: the number of pairs of a query word and a
    keyword occurrence of the page that stand in substring containment. *)
Definition hit_count (kb : KnowledgeBase) (query_text page : string) : nat :=
  list_sum
    (map (fun word =>
            List.length (filter (contained word)
                                (page_keyword_occurrences kb page)))
         (str_split (str_lower query_text))).

(** No query word stands in substring containment with any keyword of the
    catalog. *)
Definition no_match (kb : KnowledgeBase) (query_text : string) : Prop :=
  forall word f keyword,
    In word (str_split (str_lower query_text)) ->
    In f (features kb) -> In keyword (keywords_of f) ->
    contained word keyword = false.

(** Some query word and some keyword of the catalog stand in substring
    containment. *)
Definition some_match (kb : KnowledgeBase) (query_text : string) : Prop :=
  exists word f keyword,
    In word (str_split (str_lower query_text)) /\
    In f (features kb) /\ In keyword (keywords_of f) /\
    contained word keyword = true.

End LexicalSpec.

(** The candidates of a catalog: one (page, keyword) pair per keyword
    occurrence, in catalog order, then keyword order. *)
Definition catalog_candidates (kb : KnowledgeBase) : list (string * string) :=
  flat_map (fun f => match page_name f with
                     | Some p => map (fun keyword => (p, keyword))
                                     (keywords_of f)
                     | None => []
                     end)
           (features kb).

(** ** Auxiliary notions of the proofs *)

(** The value a dictionary of lists holds for a key, [[]] when absent. *)
Definition pages_at (d : dict (list string)) (k : string) : list string :=
  match dict_get d k with
  | Some pages => pages
  | None => []
  end.

(** The count a dictionary of counters holds for a key, [0] when absent. *)
Definition count_at (d : dict nat) (k : string) : nat :=
  match dict_get d k with
  | Some n => n
  | None => 0
  end.

(** The sum of [g] over a list. *)
Definition total {A : Type} (g : A -> nat) (l : list A) : nat :=
  list_sum (map g l).

(** [weight g q d]: the sum, over the items [(k, pages)] of [d], of [g k]
    times the number of occurrences of [q] in [pages]. *)
Definition weight (g : string -> nat) (q : string) (d : dict (list string))
  : nat :=
  total (fun item => g (fst item) * count_occ string_dec (snd item) q) d.

(** The counters of a scoring dictionary: distinct keys, all at least 1. *)
Definition counters (d : dict nat) : Prop :=
  NoDup (dict_keys d) /\ Forall (fun item => 1 <= snd item) d.

Section LexicalAux.
Context {py : PyStr}.

(** One pass over [keyword_to_page] for one query word. *)
Definition scan_word (k2p : dict (list string)) (page_scores : dict nat)
  (word : string) : dict nat :=
  fold_left
    (fun page_scores (item : string * list string) =>
       if Simple.word_matches word (fst item)
       then fold_left Simple.incr (snd item) page_scores
       else page_scores)
    k2p page_scores.

(** The scored pages a prediction ranks: the scoring dictionary, or every
    page with score 0 when the dictionary is empty. *)
Definition scored (self : Simple.SimpleTamilPagePredictor)
  (query_text : string) : dict nat :=
  Simple.with_fallback
    (Simple.score_pages (Simple.query_words_of query_text)
                        (Simple.keyword_to_page self))
    (Simple.page_keywords self).

End LexicalAux.

Section EmbeddingAux.
Context {model : SentenceModel}.

(** The row of similarities a prediction ranks. *)
Definition similarities (self : Embedding.TamilPagePredictor)
  (query_text : string) : list similarity :=
  map (cosine (encode_text query_text))
      (Embedding.encode (Embedding.candidate_texts self)).

(** [x] may stand before [y] in the ascending, stable order of
    (index, score) pairs. *)
Definition asc (x y : nat * similarity) : Prop :=
  sim_ltb (snd y) (snd x) = false /\
  (sim_ltb (snd x) (snd y) = true \/ fst x < fst y).

(** [outranks row i j]: index [i] may stand before index [j] in the
    ranking of [row]: its score is not smaller, and it is larger or else
    (on equal scores) [i] is the later index. *)
Definition outranks (row : list similarity) (i j : nat) : Prop :=
  exists si sj,
    nth_error row i = Some si /\ nth_error row j = Some sj /\
    sim_ltb si sj = false /\ (sim_ltb sj si = true \/ j < i).

End EmbeddingAux.

(** ** Concrete catalogs *)

Definition kb_empty : KnowledgeBase := {| features := [] |}.

Definition kb_unused : KnowledgeBase :=
  {| features := [feature_of "unused" []] |}.

Definition kb_two : KnowledgeBase :=
  {| features := [feature_of "irrigation" ["water"];
                  feature_of "yield" ["harvest"]] |}.

Definition kb_unused_first : KnowledgeBase :=
  {| features := [feature_of "unused" []; feature_of "yield" ["harvest"]] |}.


Definition kb_six : KnowledgeBase :=
  {| features := [feature_of "p1" ["k1"]; feature_of "p2" ["k2"];
                  feature_of "p3" ["k3"]; feature_of "p4" ["k4"];
                  feature_of "p5" ["k5"]; feature_of "p6" ["k6"]] |}.

Definition kb_stem : KnowledgeBase :=
  {| features := [feature_of "P" ["x"; "ab"]] |}.

Definition kb_nameless : KnowledgeBase :=
  {| features := [feature_of "yield" ["harvest"];
                  {| page_name := None; keywords := Some ["water"];
                     description := None; action_message := None |}] |}.

(** The predictors the two constructors build from a catalog that loads. *)
Definition simple_of (kb : KnowledgeBase) : Simple.SimpleTamilPagePredictor :=
  match Simple.init kb with
  | Ok self => self
  | Raise _ =>
      {| Simple.knowledge_base := kb; Simple.keyword_to_page := [];
         Simple.page_keywords := [] |}
  end.

Definition embedding_of (kb : KnowledgeBase)
  : Embedding.TamilPagePredictor (model := length_model) :=
  match Embedding.init kb with
  | Ok self => self
  | Raise _ =>
      {| Embedding.knowledge_base := kb; Embedding.candidates := [];
         Embedding.candidate_texts := [];
         Embedding.candidate_embeddings := None |}
  end.

(** ** Notions of the further properties *)

(** The pages listed for a keyword: the page of every candidate with that
    keyword, in catalog order. *)
Definition owners (kb : KnowledgeBase) (keyword : string) : list string :=
  map fst (filter (fun c => String.eqb (snd c) keyword)
                  (catalog_candidates kb)).

(** The keyword list of the last feature named [page]. *)
Definition last_keywords (kb : KnowledgeBase) (page : string)
  : option (list string) :=
  option_map keywords_of
    (find (fun f => has_name f page) (rev (features kb))).

(** The description of the first feature named [page], [""] when it has
    none or no feature has the name. *)
Definition first_description (kb : KnowledgeBase) (page : string) : string :=
  match find (fun f => has_name f page) (features kb) with
  | Some f => match description f with Some d => d | None => "" end
  | None => ""
  end.

(** The number of page entries a keyword index holds. *)
Definition entries (d : dict (list string)) : nat :=
  total (fun item : string * list string => List.length (snd item)) d.

(** The query word is a substring of the case-folded keyword: the test of
    the search for the reported keyword. *)
Definition word_in_keyword {py : PyStr} (words : list string)
  (keyword : string) : bool :=
  existsb (fun word => str_in word (str_lower keyword)) words.

(** [x] stands before [y] in the list. *)
Definition before {A : Type} (x y : A) (l : list A) : Prop :=
  exists l1 l2 l3, l = l1 ++ x :: l2 ++ y :: l3.

(** A catalog with a page name used twice. *)
Definition kb_twice : KnowledgeBase :=
  {| features := [feature_of "yield" ["harvest"; "crop"];
                  feature_of "irrigation" ["water"; "crop"];
                  {| page_name := Some "yield"; keywords := Some ["grain"];
                     description := Some "second"; action_message := None |}]
  |}.

(** * Proofs *)

Unset Implicit Arguments.

(** ** Loops and dictionaries *)

Lemma bind_ok {A B : Type} (r : result A) (k : A -> result B) (b : B) :
  bind r k = Ok b -> exists a, r = Ok a /\ k a = Ok b.
Proof.
  destruct r as [a | e]; simpl; intros H; [eauto | discriminate].
Qed.

(** A loop that appends one computed entry per element returns as soon as
    every element's entry can be computed, with the entries in order. *)
Lemma collect_ok {A B : Type} (f : A -> result B) (l : list A) :
  (forall x, In x l -> exists r, f x = Ok r) ->
  forall acc, exists rs,
    for_each (fun rs x => r <- f x ;; Ok (rs ++ [r])) l acc = Ok (acc ++ rs) /\
    Forall2 (fun x r => f x = Ok r) l rs.
Proof.
  induction l as [| x l IH]; simpl; intros Hall acc.
  - exists []. rewrite app_nil_r. auto.
  - destruct (Hall x (or_introl eq_refl)) as (r & Hr).
    destruct (IH (fun y Hy => Hall y (or_intror Hy)) (acc ++ [r]))
      as (rs & Hrs & HF).
    exists (r :: rs). rewrite Hr. simpl. rewrite Hrs, <- app_assoc. auto.
Qed.

Lemma Forall2_length_eq {A B : Type} (R : A -> B -> Prop) l1 l2 :
  Forall2 R l1 l2 -> List.length l1 = List.length l2.
Proof. induction 1; simpl; congruence. Qed.

Lemma Forall2_In_r {A B : Type} (R : A -> B -> Prop) l1 l2 y :
  Forall2 R l1 l2 -> In y l2 -> exists x, In x l1 /\ R x y.
Proof.
  induction 1 as [| a b l1 l2 Hab _ IH]; simpl; [tauto |].
  intros [<- | Hy]; [eauto |].
  destruct (IH Hy) as (x & Hx & HR). eauto.
Qed.

Lemma Forall2_In_l {A B : Type} (R : A -> B -> Prop) l1 l2 x :
  Forall2 R l1 l2 -> In x l1 -> exists y, In y l2 /\ R x y.
Proof.
  induction 1 as [| a b l1 l2 Hab _ IH]; simpl; [tauto |].
  intros [<- | Hx]; [eauto |].
  destruct (IH Hx) as (y & Hy & HR). eauto.
Qed.

(** When every entry is a function [g] of its element's [h]-image, the
    images of the entries are the images of the elements. *)
Lemma Forall2_map_eq {A B C : Type} (R : A -> B -> Prop) (h : A -> C)
  (g : B -> C) l1 l2 :
  Forall2 R l1 l2 -> (forall x y, R x y -> g y = h x) -> map g l2 = map h l1.
Proof.
  intros HF Hgh. induction HF; simpl; [reflexivity |].
  f_equal; auto.
Qed.

Lemma dict_get_set_eq {V : Type} (d : dict V) k v :
  dict_get (dict_set d k v) k = Some v.
Proof.
  induction d as [| [k' v'] d IH]; simpl.
  - now rewrite String.eqb_refl.
  - destruct (String.eqb_spec k' k) as [-> | Hne]; simpl.
    + now rewrite String.eqb_refl.
    + destruct (String.eqb_spec k' k); [contradiction | exact IH].
Qed.

Lemma dict_get_set_neq {V : Type} (d : dict V) k k' v :
  k <> k' -> dict_get (dict_set d k v) k' = dict_get d k'.
Proof.
  intros Hne. induction d as [| [k0 v0] d IH]; simpl.
  - destruct (String.eqb_spec k k'); [contradiction | reflexivity].
  - destruct (String.eqb_spec k0 k) as [-> | H0]; simpl.
    + destruct (String.eqb_spec k k'); [contradiction | reflexivity].
    + now rewrite IH.
Qed.

Lemma dict_get_None {V : Type} (d : dict V) k :
  dict_get d k = None <-> ~ In k (dict_keys d).
Proof.
  induction d as [| [k' v'] d IH]; simpl; [tauto |].
  destruct (String.eqb_spec k' k) as [-> | Hne].
  - split; [discriminate | tauto].
  - rewrite IH. tauto.
Qed.

Lemma dict_get_In {V : Type} (d : dict V) k v :
  dict_get d k = Some v -> In (k, v) d.
Proof.
  induction d as [| [k' v'] d IH]; simpl; [discriminate |].
  destruct (String.eqb_spec k' k) as [-> | Hne].
  - intros [= ->]. now left.
  - intros H. right. auto.
Qed.

Lemma In_dict_get {V : Type} (d : dict V) k v :
  NoDup (dict_keys d) -> In (k, v) d -> dict_get d k = Some v.
Proof.
  induction d as [| [k' v'] d IH]; simpl; [tauto |].
  intros Hnd [Heq | Hin].
  - injection Heq as -> ->. now rewrite String.eqb_refl.
  - inversion Hnd as [| ? ? Hk Hd]; subst.
    destruct (String.eqb_spec k' k) as [-> | Hne].
    + exfalso. apply Hk. change k with (fst (k, v)). now apply in_map.
    + auto.
Qed.

Lemma dict_keys_set {V : Type} (d : dict V) k v :
  dict_keys (dict_set d k v) =
  if dict_mem d k then dict_keys d else dict_keys d ++ [k].
Proof.
  unfold dict_mem. induction d as [| [k' v'] d IH]; simpl; [reflexivity |].
  destruct (String.eqb_spec k' k) as [-> | Hne]; simpl; [reflexivity |].
  rewrite IH. now destruct (dict_get d k).
Qed.

Lemma dict_mem_true {V : Type} (d : dict V) k :
  dict_mem d k = true <-> In k (dict_keys d).
Proof.
  unfold dict_mem. pose proof (dict_get_None d k) as H.
  destruct (dict_get d k).
  - split; [| reflexivity]. intros _.
    destruct (in_dec string_dec k (dict_keys d)) as [Hin | Hout]; [exact Hin |].
    apply H in Hout. discriminate.
  - split; [discriminate |]. intros Hin. exfalso. now apply H.
Qed.

Lemma NoDup_snoc {A : Type} (l : list A) x :
  NoDup l -> ~ In x l -> NoDup (l ++ [x]).
Proof.
  induction l as [| y l IH]; simpl; intros Hnd Hx.
  - constructor; [tauto | constructor].
  - inversion Hnd as [| ? ? Hy Hl]; subst. constructor.
    + rewrite in_app_iff. simpl. intros [H | [H | []]]; [tauto |].
      apply Hx. now left.
    + apply IH; tauto.
Qed.

Lemma dict_set_NoDup {V : Type} (d : dict V) k v :
  NoDup (dict_keys d) -> NoDup (dict_keys (dict_set d k v)).
Proof.
  intros Hnd. rewrite dict_keys_set.
  destruct (dict_mem d k) eqn:Hm; [exact Hnd |].
  apply NoDup_snoc; [exact Hnd |].
  intros Hin. apply dict_mem_true in Hin. congruence.
Qed.

Lemma dict_set_set {V : Type} (d : dict V) k v v' :
  dict_set (dict_set d k v) k v' = dict_set d k v'.
Proof.
  induction d as [| [k0 v0] d IH]; simpl.
  - now rewrite String.eqb_refl.
  - destruct (String.eqb_spec k0 k) as [-> | Hne]; simpl.
    + now rewrite String.eqb_refl.
    + destruct (String.eqb_spec k0 k); [contradiction | now rewrite IH].
Qed.

Lemma total_app {A : Type} (g : A -> nat) l1 l2 :
  total g (l1 ++ l2) = total g l1 + total g l2.
Proof. unfold total. now rewrite map_app, list_sum_app. Qed.

Lemma total_indicator {A : Type} (b : A -> bool) l :
  total (fun x => if b x then 1 else 0) l = List.length (filter b l).
Proof.
  unfold total. induction l as [| x l IH]; simpl; [reflexivity |].
  destruct (b x); simpl; lia.
Qed.

Lemma weight_set g q d k v :
  weight g q (dict_set d k v) + g k * count_occ string_dec (pages_at d k) q =
  weight g q d + g k * count_occ string_dec v q.
Proof.
  unfold weight, total, pages_at.
  induction d as [| [k0 v0] d IH]; simpl.
  - lia.
  - destruct (String.eqb_spec k0 k) as [-> | Hne]; simpl; lia.
Qed.

(** ** The lexical matcher *)

(** *** Loading *)

Module SimpleLoad.
Import Simple.

Lemma add_keyword_eq d p k :
  add_keyword d p k = dict_set d k (pages_at d k ++ [p]).
Proof.
  unfold add_keyword, dict_mem, pages_at.
  destruct (dict_get d k) as [pages |] eqn:Hg.
  - now rewrite Hg.
  - rewrite dict_get_set_eq. apply dict_set_set.
Qed.

Lemma weight_add_keyword g q d p k :
  weight g q (add_keyword d p k) =
  weight g q d + (if String.eqb p q then g k else 0).
Proof.
  rewrite add_keyword_eq.
  pose proof (weight_set g q d k (pages_at d k ++ [p])) as H.
  rewrite count_occ_app in H. simpl in H.
  rewrite Nat.mul_add_distr_l in H.
  destruct (string_dec p q) as [-> | Hne].
  - rewrite String.eqb_refl. lia.
  - destruct (String.eqb_spec p q); [contradiction | lia].
Qed.

Lemma weight_add_keywords g q p ks :
  forall d,
    weight g q (fold_left (fun d keyword => add_keyword d p keyword) ks d) =
    weight g q d + (if String.eqb p q then total g ks else 0).
Proof.
  unfold total.
  induction ks as [| k ks IH]; simpl; intros d.
  - destruct (String.eqb p q); lia.
  - rewrite IH, weight_add_keyword. destruct (String.eqb p q); lia.
Qed.

(** A feature the loading loop accepts has both required keys. *)
Lemma index_feature_ok st f st' :
  index_feature st f = Ok st' ->
  exists p ks,
    page_name f = Some p /\ keywords f = Some ks /\
    st' = (fold_left (fun d keyword => add_keyword d p keyword) ks (fst st),
           dict_set (snd st) p ks).
Proof.
  unfold index_feature, get_page_name, get_keywords.
  destruct (page_name f) as [p |]; simpl; [| discriminate].
  destruct (keywords f) as [ks |]; simpl; [| discriminate].
  intros [= <-]. eauto.
Qed.

(** The features of a knowledge base that loads all have a name and a
    keyword list. *)
Lemma loaded_well_formed fs :
  forall st st',
    for_each index_feature fs st = Ok st' ->
    Forall (fun f => exists p ks, page_name f = Some p /\ keywords f = Some ks)
           fs.
Proof.
  induction fs as [| f fs IH]; simpl; intros st st' H; [constructor |].
  apply bind_ok in H as (st1 & H1 & H2).
  apply index_feature_ok in H1 as (p & ks & Hp & Hk & _).
  constructor; eauto.
Qed.

(** After loading, [keyword_to_page] weighs every page by the keyword
    occurrences of the features of that name. *)
Lemma loaded_weight g q fs :
  forall st st',
    for_each index_feature fs st = Ok st' ->
    weight g q (fst st') =
    weight g q (fst st) +
    total g (flat_map (fun f => if has_name f q then keywords_of f else [])
                      fs).
Proof.
  induction fs as [| f fs IH]; simpl; intros st st' H.
  - injection H as <-. unfold total. simpl. lia.
  - apply bind_ok in H as (st1 & H1 & H2).
    apply index_feature_ok in H1 as (p & ks & Hp & Hk & ->).
    rewrite (IH _ _ H2). simpl. rewrite weight_add_keywords, total_app.
    unfold has_name, keywords_of. rewrite Hp, Hk.
    destruct (String.eqb p q); unfold total; simpl; lia.
Qed.

Lemma existsb_eqb_In x l :
  existsb (String.eqb x) l = true <-> In x l.
Proof.
  rewrite existsb_exists. split.
  - intros (y & Hy & Heq). apply String.eqb_eq in Heq. now subst.
  - intros H. exists x. split; [exact H | apply String.eqb_refl].
Qed.

(** After loading, the keys of [page_keywords] are the page names in the
    order of their first occurrence. *)
Lemma loaded_keys fs :
  forall st st',
    for_each index_feature fs st = Ok st' ->
    dict_keys (snd st') =
    dict_keys (snd st) ++
    first_occurrences (dict_keys (snd st))
      (flat_map (fun f => match page_name f with Some p => [p] | None => [] end)
                fs).
Proof.
  induction fs as [| f fs IH]; simpl; intros st st' H.
  - injection H as <-. now rewrite app_nil_r.
  - apply bind_ok in H as (st1 & H1 & H2).
    apply index_feature_ok in H1 as (p & ks & Hp & Hk & ->).
    rewrite (IH _ _ H2), Hp. simpl. rewrite dict_keys_set.
    destruct (dict_mem (snd st) p) eqn:Hm.
    + apply dict_mem_true, existsb_eqb_In in Hm. now rewrite Hm.
    + destruct (existsb (String.eqb p) (dict_keys (snd st))) eqn:He.
      * apply existsb_eqb_In, dict_mem_true in He. congruence.
      * now rewrite <- app_assoc.
Qed.

Lemma loaded_keys_NoDup fs :
  forall st st',
    for_each index_feature fs st = Ok st' ->
    NoDup (dict_keys (snd st)) -> NoDup (dict_keys (snd st')).
Proof.
  induction fs as [| f fs IH]; simpl; intros st st' H Hnd.
  - now injection H as <-.
  - apply bind_ok in H as (st1 & H1 & H2).
    apply index_feature_ok in H1 as (p & ks & Hp & Hk & ->).
    apply (IH _ _ H2). simpl. now apply dict_set_NoDup.
Qed.

Lemma first_occurrences_In x l :
  forall seen, In x l -> In x seen \/ In x (first_occurrences seen l).
Proof.
  induction l as [| y l IH]; simpl; intros seen Hin; [tauto |].
  destruct (existsb (String.eqb y) seen) eqn:He.
  - destruct Hin as [-> | Hin]; [left; now apply existsb_eqb_In | auto].
  - destruct Hin as [-> | Hin]; [right; now left |].
    destruct (IH (seen ++ [y]) Hin) as [H | H].
    + apply in_app_iff in H as [H | [<- | []]]; [now left | right; now left].
    + right. now right.
Qed.

Lemma first_occurrences_incl x l :
  forall seen, In x (first_occurrences seen l) -> In x l.
Proof.
  induction l as [| y l IH]; simpl; intros seen Hin; [tauto |].
  destruct (existsb (String.eqb y) seen).
  - right. eauto.
  - destruct Hin as [-> | Hin]; [now left | right; eauto].
Qed.

End SimpleLoad.

(** *** Scoring *)

Module SimpleScore.
Import Simple.

Section Scoring.
Context {py : PyStr}.

Lemma incr_eq d p : incr d p = dict_set d p (count_at d p + 1).
Proof.
  unfold incr, dict_mem, count_at.
  destruct (dict_get d p) as [n |] eqn:Hg.
  - now rewrite Hg.
  - rewrite dict_get_set_eq. apply dict_set_set.
Qed.

Lemma count_incr d p q :
  count_at (incr d p) q = count_at d q + (if String.eqb p q then 1 else 0).
Proof.
  rewrite incr_eq. unfold count_at at 1.
  destruct (String.eqb_spec p q) as [-> | Hne].
  - rewrite dict_get_set_eq. reflexivity.
  - rewrite dict_get_set_neq by exact Hne. fold (count_at d q). lia.
Qed.

Lemma count_incr_pages pages q :
  forall d,
    count_at (fold_left incr pages d) q =
    count_at d q + count_occ string_dec pages q.
Proof.
  induction pages as [| p pages IH]; simpl; intros d; [lia |].
  rewrite IH, count_incr.
  destruct (string_dec p q) as [-> | Hne].
  - rewrite String.eqb_refl. lia.
  - destruct (String.eqb_spec p q); [contradiction | lia].
Qed.

Lemma Forall_dict_set {V : Type} (P : string * V -> Prop) d k v :
  Forall P d -> (forall k', P (k', v)) -> Forall P (dict_set d k v).
Proof.
  intros Hd Hv. induction d as [| [k0 v0] d IH]; simpl.
  - constructor; [apply Hv | constructor].
  - inversion Hd; subst.
    destruct (String.eqb k0 k); constructor; auto.
Qed.

Lemma counters_incr d p : counters d -> counters (incr d p).
Proof.
  intros [Hnd Hpos]. rewrite incr_eq. split.
  - now apply dict_set_NoDup.
  - apply Forall_dict_set; [exact Hpos |]. intros k'. simpl. lia.
Qed.

Lemma counters_incr_pages pages :
  forall d, counters d -> counters (fold_left incr pages d).
Proof.
  induction pages as [| p pages IH]; simpl; intros d Hd; [exact Hd |].
  apply IH. now apply counters_incr.
Qed.

Lemma score_pages_scan words k2p :
  score_pages words k2p = fold_left (scan_word k2p) words [].
Proof. reflexivity. Qed.

Lemma count_scan_word word q k2p :
  forall d,
    count_at (scan_word k2p d word) q =
    count_at d q +
    weight (fun k => if contained word k then 1 else 0) q k2p.
Proof.
  unfold scan_word, weight, total.
  induction k2p as [| [k pages] k2p IH]; simpl; intros d; [lia |].
  rewrite IH. unfold word_matches, contained.
  destruct (str_in word (str_lower k) || str_in (str_lower k) word).
  - rewrite count_incr_pages. lia.
  - lia.
Qed.

Lemma counters_scan_word word k2p :
  forall d, counters d -> counters (scan_word k2p d word).
Proof.
  unfold scan_word.
  induction k2p as [| [k pages] k2p IH]; simpl; intros d Hd; [exact Hd |].
  apply IH. destruct (word_matches word k); [| exact Hd].
  now apply counters_incr_pages.
Qed.

Lemma count_scan_words q k2p words :
  forall d,
    count_at (fold_left (scan_word k2p) words d) q =
    count_at d q +
    total (fun word =>
             weight (fun k => if contained word k then 1 else 0) q k2p)
          words.
Proof.
  unfold total.
  induction words as [| w words IH]; simpl; intros d; [lia |].
  rewrite IH, count_scan_word. lia.
Qed.

Lemma counters_scan_words k2p words :
  forall d, counters d -> counters (fold_left (scan_word k2p) words d).
Proof.
  induction words as [| w words IH]; simpl; intros d Hd; [exact Hd |].
  apply IH. now apply counters_scan_word.
Qed.

Lemma counters_score_pages words k2p : counters (score_pages words k2p).
Proof.
  rewrite score_pages_scan. apply counters_scan_words.
  split; constructor.
Qed.

(** The scoring loop counts, for every page, its raw hits. *)
Lemma count_score_pages kb self query_text q :
  init kb = Ok self ->
  count_at (score_pages (query_words_of query_text) (keyword_to_page self)) q =
  hit_count kb query_text q.
Proof.
  unfold init, prepare_keyword_index. intros H.
  apply bind_ok in H as (st & Hst & Hself). injection Hself as <-.
  simpl in *. rewrite score_pages_scan, count_scan_words.
  unfold hit_count, query_words_of, page_keyword_occurrences, count_at.
  simpl. unfold total at 1. f_equal. apply map_ext. intros word.
  rewrite (SimpleLoad.loaded_weight _ q _ _ _ Hst). simpl.
  apply total_indicator.
Qed.

End Scoring.

End SimpleScore.

(** *** Sorting and the top five *)

Lemma In_firstn {A : Type} (x : A) n :
  forall l, In x (firstn n l) -> In x l.
Proof.
  induction n as [| n IH]; simpl; [tauto |].
  intros [| y l]; simpl; [tauto |]. intros [H | H]; auto.
Qed.

Lemma NoDup_firstn {A : Type} n :
  forall l : list A, NoDup l -> NoDup (firstn n l).
Proof.
  induction n as [| n IH]; simpl; [constructor |].
  intros [| y l] Hnd; [constructor |].
  inversion Hnd as [| ? ? Hy Hl]; subst. constructor; [| auto].
  intros Hin. apply Hy. eapply In_firstn, Hin.
Qed.

Lemma insert_desc_perm {A : Type} (x : A * nat) l :
  Permutation (insert_desc x l) (x :: l).
Proof.
  induction l as [| y l IH]; simpl; [reflexivity |].
  destruct (snd x <? snd y); [| reflexivity].
  rewrite IH. apply perm_swap.
Qed.

Lemma sorted_desc_perm {A : Type} (l : list (A * nat)) :
  Permutation (sorted_desc l) l.
Proof.
  induction l as [| x l IH]; simpl; [reflexivity |].
  rewrite insert_desc_perm. now constructor.
Qed.

(** Sorting leaves a list of equal scores as it is: ties keep their
    original order. *)
Lemma sorted_desc_ties {A : Type} (l : list (A * nat)) n :
  Forall (fun item => snd item = n) l -> sorted_desc l = l.
Proof.
  induction 1 as [| x l Hx Hl IH]; simpl; [reflexivity |].
  rewrite IH. destruct l as [| y l]; simpl; [reflexivity |].
  inversion Hl; subst. replace (snd y) with (snd x) by congruence.
  now rewrite Nat.ltb_irrefl.
Qed.

(** *** Prediction *)

Module SimplePredict.
Import Simple.

Section Predicting.
Context {py : PyStr}.

Lemma loaded_page_keys kb self :
  init kb = Ok self ->
  dict_keys (page_keywords self) = first_occurrences [] (page_names kb).
Proof.
  unfold init, prepare_keyword_index. intros H.
  apply bind_ok in H as (st & Hst & Hself). injection Hself as <-.
  simpl in *. now rewrite (SimpleLoad.loaded_keys _ _ _ Hst).
Qed.

Lemma loaded_page_keys_NoDup kb self :
  init kb = Ok self -> NoDup (dict_keys (page_keywords self)).
Proof.
  unfold init, prepare_keyword_index. intros H.
  apply bind_ok in H as (st & Hst & Hself). injection Hself as <-.
  simpl in *. apply (SimpleLoad.loaded_keys_NoDup _ _ _ Hst). constructor.
Qed.

Lemma loaded_features kb self :
  init kb = Ok self ->
  knowledge_base self = kb /\
  Forall (fun f => exists p ks, page_name f = Some p /\ keywords f = Some ks)
         (features kb).
Proof.
  unfold init, prepare_keyword_index. intros H.
  apply bind_ok in H as (st & Hst & Hself). injection Hself as <-.
  simpl in *. split; [reflexivity |].
  eapply SimpleLoad.loaded_well_formed, Hst.
Qed.

(** A page without a feature of its name has no hits. *)
Lemma hit_count_absent kb query_text p :
  ~ In p (page_names kb) -> hit_count kb query_text p = 0.
Proof.
  intros Hp. unfold hit_count, page_keyword_occurrences.
  assert (Hnil : flat_map (fun f => if has_name f p then keywords_of f else [])
                          (features kb) = []).
  { unfold page_names in Hp.
    induction (features kb) as [| f fs IH]; simpl in *; [reflexivity |].
    rewrite in_app_iff in Hp. rewrite IH by tauto.
    unfold has_name. destruct (page_name f) as [p' |]; [| reflexivity].
    destruct (String.eqb_spec p' p) as [-> | Hne]; [| reflexivity].
    exfalso. apply Hp. left. now left. }
  rewrite Hnil. simpl.
  induction (str_split (str_lower query_text)); simpl; auto.
Qed.

Lemma hit_count_pos_name kb query_text p :
  1 <= hit_count kb query_text p -> In p (page_names kb).
Proof.
  intros Hpos.
  destruct (in_dec string_dec p (page_names kb)) as [Hin | Hout]; [exact Hin |].
  rewrite (hit_count_absent kb query_text p Hout) in Hpos. lia.
Qed.

(** Every scored page carries its raw hit count and is a page of the
    catalog; outside the fall-back the count is at least 1. *)
Lemma scored_item kb self query_text p n :
  init kb = Ok self ->
  In (p, n) (scored self query_text) ->
  n = hit_count kb query_text p /\ In p (page_names kb) /\
  (score_pages (query_words_of query_text) (keyword_to_page self) <> [] ->
   1 <= n).
Proof.
  intros Hinit Hin. unfold scored in Hin.
  pose proof (SimpleScore.count_score_pages kb self query_text p Hinit)
    as Hcount.
  pose proof (SimpleScore.counters_score_pages
                (query_words_of query_text) (keyword_to_page self))
    as [Hnd Hpos].
  destruct (score_pages (query_words_of query_text) (keyword_to_page self))
    as [| item ps] eqn:Hps; simpl in Hin.
  - apply in_map_iff in Hin as (p' & [= -> <-] & Hkey).
    rewrite (loaded_page_keys kb self Hinit) in Hkey.
    apply SimpleLoad.first_occurrences_incl in Hkey.
    repeat split; [exact Hcount | exact Hkey | congruence].
  - assert (Hn : 1 <= n).
    { rewrite Forall_forall in Hpos. apply (Hpos (p, n) Hin). }
    apply (In_dict_get _ _ _ Hnd) in Hin.
    unfold count_at in Hcount. rewrite Hin in Hcount. subst n.
    repeat split; [| auto]. now apply hit_count_pos_name with query_text.
Qed.

Lemma description_total fs name :
  Forall (fun f => exists p ks, page_name f = Some p /\ keywords f = Some ks)
         fs ->
  exists d, get_page_description_in fs name = Ok d.
Proof.
  induction 1 as [| f fs (p & ks & Hp & _) _ IH]; simpl; [eauto |].
  unfold get_page_name. rewrite Hp. simpl.
  destruct (String.eqb p name); eauto.
Qed.

(** The loop body returns for every page of the catalog. *)
Lemma lexical_make_result_total kb self words p n :
  init kb = Ok self -> In p (page_names kb) ->
  exists r, make_result self words (p, n) = Ok r.
Proof.
  intros Hinit Hp. unfold make_result, dict_getitem. simpl.
  destruct (dict_get (page_keywords self) p) as [ks |] eqn:Hg.
  - simpl. destruct (loaded_features kb self Hinit) as [-> Hwf].
    destruct (description_total _ p Hwf) as (d & Hd).
    unfold get_page_description. rewrite Hd. simpl. eauto.
  - exfalso. apply dict_get_None in Hg. apply Hg.
    rewrite (loaded_page_keys kb self Hinit).
    destruct (SimpleLoad.first_occurrences_In p (page_names kb) [] Hp)
      as [[] | H]; exact H.
Qed.

Lemma lexical_make_result_fields self words item r :
  make_result self words item = Ok r ->
  r_page_name r = fst item /\
  r_similarity_score r = normalize (snd item) (List.length words) /\
  exists ks, dict_get (page_keywords self) (fst item) = Some ks /\
             r_keyword r = matching_keyword words ks.
Proof.
  unfold make_result, dict_getitem. intros H.
  destruct (dict_get (page_keywords self) (fst item)) as [ks |];
    simpl in H; [| discriminate].
  apply bind_ok in H as (d & _ & [= <-]). simpl. eauto.
Qed.

(** [predict_page] returns on every loaded predictor: one entry per item
    of the first five scored pages in sorted order. *)
Lemma predict_page_items kb self query_text :
  init kb = Ok self ->
  exists rs,
    predict_page self query_text = Ok rs /\
    Forall2 (fun item r =>
               make_result self (query_words_of query_text) item = Ok r)
            (firstn 5 (sorted_desc (scored self query_text))) rs.
Proof.
  intros Hinit. unfold predict_page. fold (scored self query_text).
  destruct (collect_ok (make_result self (query_words_of query_text))
              (firstn 5 (sorted_desc (scored self query_text))))
    with (acc := @nil (Prediction Q))
    as (rs & Hrs & HF).
  - intros [p n] Hin. apply In_firstn in Hin.
    apply (Permutation_in _ (sorted_desc_perm _)) in Hin.
    destruct (scored_item _ _ _ _ _ Hinit Hin) as (_ & Hp & _).
    now apply lexical_make_result_total with kb.
  - exists rs. split; [exact Hrs | exact HF].
Qed.

End Predicting.

End SimplePredict.

(** *** Hits and matches *)

Lemma list_sum_In_le x l : In x l -> x <= list_sum l.
Proof.
  induction l as [| y l IH]; simpl; [tauto |].
  intros [-> | H]; [lia | specialize (IH H); lia].
Qed.

Lemma list_sum_zero l : (forall x, In x l -> x = 0) -> list_sum l = 0.
Proof.
  induction l as [| y l IH]; simpl; intros H; [reflexivity |].
  rewrite (H y (or_introl eq_refl)), IH; auto.
Qed.

Module SimpleHits.
Import Simple.

Section Hits.
Context {py : PyStr}.

Lemma occurrence_of_feature kb f p keyword :
  In f (features kb) -> page_name f = Some p -> In keyword (keywords_of f) ->
  In keyword (page_keyword_occurrences kb p).
Proof.
  intros Hf Hp Hk. unfold page_keyword_occurrences.
  apply in_flat_map. exists f. split; [exact Hf |].
  unfold has_name. now rewrite Hp, String.eqb_refl.
Qed.

Lemma feature_of_occurrence kb p keyword :
  In keyword (page_keyword_occurrences kb p) ->
  exists f, In f (features kb) /\ page_name f = Some p /\
            In keyword (keywords_of f).
Proof.
  unfold page_keyword_occurrences. intros H.
  apply in_flat_map in H as (f & Hf & Hk). exists f.
  unfold has_name in Hk. destruct (page_name f) as [p' |]; [| contradiction].
  destruct (String.eqb_spec p' p) as [Heq | Hne]; [| contradiction].
  subst p'. auto.
Qed.

(** A match on a keyword of a feature is a hit of the feature's page. *)
Lemma match_hit kb query_text word f p keyword :
  In word (str_split (str_lower query_text)) ->
  In f (features kb) -> page_name f = Some p -> In keyword (keywords_of f) ->
  contained word keyword = true ->
  1 <= hit_count kb query_text p.
Proof.
  intros Hw Hf Hp Hk Hc. unfold hit_count.
  apply Nat.le_trans
    with (List.length (filter (contained word)
                              (page_keyword_occurrences kb p))).
  - assert (Hin : In keyword (filter (contained word)
                                     (page_keyword_occurrences kb p))).
    { apply filter_In. split; [| exact Hc].
      now apply occurrence_of_feature with f. }
    destruct (filter (contained word) (page_keyword_occurrences kb p));
      [contradiction | simpl; lia].
  - apply list_sum_In_le.
    apply (in_map (fun w => List.length
                              (filter (contained w)
                                      (page_keyword_occurrences kb p)))).
    exact Hw.
Qed.

(** Without a match no page has a hit. *)
Lemma no_match_no_hits kb query_text p :
  no_match kb query_text -> hit_count kb query_text p = 0.
Proof.
  intros Hno. unfold hit_count. apply list_sum_zero.
  intros n Hn. apply in_map_iff in Hn as (word & <- & Hw).
  destruct (filter (contained word) (page_keyword_occurrences kb p))
    as [| keyword l] eqn:Hfilter; [reflexivity |].
  assert (Hin : In keyword (filter (contained word)
                                   (page_keyword_occurrences kb p))).
  { rewrite Hfilter. now left. }
  apply filter_In in Hin as [Hocc Hc].
  apply feature_of_occurrence in Hocc as (f & Hf & _ & Hk).
  rewrite (Hno word f keyword Hw Hf Hk) in Hc. discriminate.
Qed.

(** A hit comes from a match on a keyword occurrence of the page. *)
Lemma hit_has_keyword kb query_text p :
  1 <= hit_count kb query_text p -> page_keyword_occurrences kb p <> [].
Proof.
  unfold hit_count. intros Hpos Hnil. rewrite Hnil in Hpos. simpl in Hpos.
  rewrite list_sum_zero in Hpos; [lia |].
  intros n Hn. apply in_map_iff in Hn as (w & <- & _). reflexivity.
Qed.

(** The scoring dictionary is empty exactly when there is no match. *)
Lemma no_match_scores_empty kb self query_text :
  init kb = Ok self -> no_match kb query_text ->
  score_pages (query_words_of query_text) (keyword_to_page self) = [].
Proof.
  intros Hinit Hno.
  pose proof (SimpleScore.counters_score_pages
                (query_words_of query_text) (keyword_to_page self))
    as [_ Hpos].
  destruct (score_pages (query_words_of query_text) (keyword_to_page self))
    as [| [p n] ps] eqn:Hps; [reflexivity |].
  pose proof (SimpleScore.count_score_pages kb self query_text p Hinit) as Hc.
  rewrite Hps, (no_match_no_hits kb query_text p Hno) in Hc.
  unfold count_at in Hc. simpl in Hc. rewrite String.eqb_refl in Hc.
  inversion Hpos as [| ? ? Hn _]; subst. simpl in Hn. lia.
Qed.

Lemma some_match_scores_nonempty kb self query_text :
  init kb = Ok self -> some_match kb query_text ->
  score_pages (query_words_of query_text) (keyword_to_page self) <> [].
Proof.
  intros Hinit (word & f & keyword & Hw & Hf & Hk & Hc) Hnil.
  destruct (SimplePredict.loaded_features kb self Hinit) as [_ Hwf].
  rewrite Forall_forall in Hwf. destruct (Hwf f Hf) as (p & ks & Hp & _).
  pose proof (match_hit kb query_text word f p keyword Hw Hf Hp Hk Hc) as Hhit.
  rewrite <- (SimpleScore.count_score_pages kb self query_text p Hinit), Hnil
    in Hhit.
  unfold count_at in Hhit. simpl in Hhit. lia.
Qed.

(** The pages of the results, in terms of the scored items. *)
Lemma result_items kb self query_text rs :
  init kb = Ok self -> predict_page self query_text = Ok rs ->
  Forall2 (fun item r =>
             make_result self (query_words_of query_text) item = Ok r)
          (firstn 5 (sorted_desc (scored self query_text))) rs.
Proof.
  intros Hinit Hrs.
  destruct (SimplePredict.predict_page_items kb self query_text Hinit)
    as (rs' & Hrs' & HF).
  congruence.
Qed.

Lemma result_names kb self query_text rs :
  init kb = Ok self -> predict_page self query_text = Ok rs ->
  map (@r_page_name Q) rs =
  map fst (firstn 5 (sorted_desc (scored self query_text))).
Proof.
  intros Hinit Hrs.
  apply Forall2_map_eq
    with (R := fun item r =>
                 make_result self (query_words_of query_text) item = Ok r).
  - now apply result_items with kb.
  - intros item r Hr. now apply SimplePredict.lexical_make_result_fields in Hr.
Qed.

(** Every result stems from a scored item. *)
Lemma result_scored kb self query_text rs r :
  init kb = Ok self -> predict_page self query_text = Ok rs -> In r rs ->
  exists n,
    In (r_page_name r, n) (scored self query_text) /\
    r_similarity_score r =
    normalize n (List.length (query_words_of query_text)).
Proof.
  intros Hinit Hrs Hr.
  destruct (Forall2_In_r _ _ _ r
              (result_items kb self query_text rs Hinit Hrs) Hr)
    as ([p n] & Hitem & Hmk).
  apply SimplePredict.lexical_make_result_fields in Hmk as (Hp & Hs & _).
  simpl in Hp, Hs. exists n. rewrite Hp. split; [| exact Hs].
  apply In_firstn in Hitem.
  now apply (Permutation_in _ (sorted_desc_perm _)) in Hitem.
Qed.

End Hits.

End SimpleHits.

(** ** The embedding matcher *)

Lemma map_fst_combine {A B : Type} (l1 : list A) :
  forall l2 : list B,
    List.length l1 = List.length l2 -> map fst (combine l1 l2) = l1.
Proof.
  induction l1 as [| x l1 IH]; intros [| y l2] H; simpl in *;
    try reflexivity; try discriminate.
  f_equal. apply IH. lia.
Qed.

Lemma combine_seq_In {A : Type} (row : list A) :
  forall a i s,
    In (i, s) (combine (seq a (List.length row)) row) ->
    a <= i /\ nth_error row (i - a) = Some s.
Proof.
  induction row as [| x row IH]; simpl; intros a i s H; [contradiction |].
  destruct H as [[= <- <-] | H].
  - rewrite Nat.sub_diag. split; [lia | reflexivity].
  - apply IH in H as [Hle Hnth]. split; [lia |].
    replace (i - a) with (S (i - S a)) by lia. exact Hnth.
Qed.

Lemma combine_seq_increasing {A : Type} (row : list A) :
  forall a,
    StronglySorted (fun x y : nat * A => fst x < fst y)
                   (combine (seq a (List.length row)) row).
Proof.
  induction row as [| x row IH]; simpl; intros a; constructor.
  - apply IH.
  - apply Forall_forall. intros [i s] Hin.
    apply combine_seq_In in Hin. simpl. lia.
Qed.

Module EmbeddingFacts.
Import Embedding.

Section Facts.
Context {model : SentenceModel}.

Lemma add_keywords_eq p ks :
  forall st : list string * list string,
    fold_left (fun (st : list string * list string) keyword =>
                 (fst st ++ [p], snd st ++ [keyword])) ks st =
    (fst st ++ map (fun _ => p) ks, snd st ++ ks).
Proof.
  induction ks as [| k ks IH]; simpl; intros [ps ts]; simpl.
  - now rewrite !app_nil_r.
  - rewrite IH. simpl. now rewrite <- !app_assoc.
Qed.

Lemma add_feature_ok st f st' :
  add_feature st f = Ok st' ->
  exists p ks,
    page_name f = Some p /\ keywords f = Some ks /\
    st' = (fst st ++ map (fun _ => p) ks, snd st ++ ks).
Proof.
  unfold add_feature, get_page_name, get_keywords.
  destruct (page_name f) as [p |]; simpl; [| discriminate].
  destruct (keywords f) as [ks |]; simpl; [| discriminate].
  rewrite add_keywords_eq. intros [= <-]. eauto.
Qed.

(** The loading loop appends the candidates of the features it reads. *)
Lemma loaded_candidates fs :
  forall st st',
    for_each add_feature fs st = Ok st' ->
    fst st' = fst st ++ map fst (catalog_candidates {| features := fs |}) /\
    snd st' = snd st ++ map snd (catalog_candidates {| features := fs |}) /\
    Forall (fun f => exists p ks, page_name f = Some p /\ keywords f = Some ks)
           fs.
Proof.
  unfold catalog_candidates.
  induction fs as [| f fs IH]; simpl; intros st st' H.
  - injection H as <-. rewrite !app_nil_r. auto.
  - apply bind_ok in H as (st1 & H1 & H2).
    apply add_feature_ok in H1 as (p & ks & Hp & Hk & ->).
    destruct (IH _ _ H2) as (Hc & Ht & Hwf). simpl in Hc, Ht.
    assert (Hko : keywords_of f = ks) by (unfold keywords_of; now rewrite Hk).
    rewrite Hc, Ht, Hp, Hko.
    rewrite !map_app, !map_map. simpl. rewrite map_id, <- !app_assoc.
    repeat split; eauto.
Qed.

(** What the constructor builds. *)
Lemma init_ok kb self :
  init kb = Ok self ->
  knowledge_base self = kb /\
  candidates self = map fst (catalog_candidates kb) /\
  candidate_texts self = map snd (catalog_candidates kb) /\
  candidate_embeddings self = Some (encode (candidate_texts self)) /\
  Forall (fun f => exists p ks, page_name f = Some p /\ keywords f = Some ks)
         (features kb).
Proof.
  unfold init, prepare_candidates. simpl. intros H.
  apply bind_ok in H as (st & Hst & Hself). injection Hself as <-. simpl.
  apply loaded_candidates in Hst as (Hc & Ht & Hwf). simpl in Hc, Ht.
  destruct kb as [fs]. simpl in *. auto.
Qed.

Lemma insert_asc_perm x l : Permutation (insert_asc x l) (x :: l).
Proof.
  induction l as [| y l IH]; simpl; [reflexivity |].
  destruct (sim_ltb (snd y) (snd x)); [| reflexivity].
  rewrite IH. apply perm_swap.
Qed.

Lemma sort_asc_perm l : Permutation (sort_asc l) l.
Proof.
  induction l as [| x l IH]; simpl; [reflexivity |].
  rewrite insert_asc_perm. now constructor.
Qed.

(** [argsort] returns every index of the row exactly once. *)
Lemma argsort_perm row : Permutation (argsort row) (seq 0 (List.length row)).
Proof.
  unfold argsort.
  rewrite (Permutation_map fst (sort_asc_perm _)).
  rewrite map_fst_combine; [reflexivity | apply length_seq].
Qed.

Lemma top_indices_range row idx :
  In idx (top_indices row) -> idx < List.length row.
Proof.
  unfold top_indices. intros H. apply In_firstn in H.
  apply in_rev in H.
  apply (Permutation_in _ (argsort_perm row)) in H.
  apply in_seq in H. lia.
Qed.

Lemma top_indices_length row :
  List.length (top_indices row) = Nat.min 5 (List.length row).
Proof.
  unfold top_indices.
  rewrite length_firstn, length_rev, (Permutation_length (argsort_perm row)).
  now rewrite length_seq.
Qed.

(** With fewer than five entries every index is among the top indices. *)
Lemma top_indices_all row idx :
  List.length row <= 5 -> idx < List.length row -> In idx (top_indices row).
Proof.
  intros Hlen Hidx. unfold top_indices.
  rewrite firstn_all2.
  - apply in_rev. rewrite rev_involutive.
    apply (Permutation_in _ (Permutation_sym (argsort_perm row))).
    apply in_seq. lia.
  - rewrite length_rev, (Permutation_length (argsort_perm row)), length_seq.
    exact Hlen.
Qed.

Lemma similarities_length kb self query_text :
  init kb = Ok self ->
  List.length (similarities self query_text) =
  List.length (catalog_candidates kb).
Proof.
  intros Hinit. destruct (init_ok kb self Hinit) as (_ & _ & Ht & _).
  unfold similarities, encode. now rewrite !length_map, Ht, length_map.
Qed.

Lemma cosine_similarity_ok kb self query_text :
  init kb = Ok self -> catalog_candidates kb <> [] ->
  cosine_similarity (encode_text query_text) (candidate_embeddings self) =
  Ok (similarities self query_text).
Proof.
  intros Hinit Hne. destruct (init_ok kb self Hinit) as (_ & _ & Ht & He & _).
  rewrite He. unfold similarities, encode. rewrite Ht.
  destruct (catalog_candidates kb) as [| c cs]; [contradiction | reflexivity].
Qed.

(** Without a single keyword in the catalog the similarity computation
    raises: there is no prediction. *)
Lemma predict_page_no_candidates kb self query_text :
  init kb = Ok self -> catalog_candidates kb = [] ->
  predict_page self query_text = Raise ValueError.
Proof.
  intros Hinit Hnil. destruct (init_ok kb self Hinit) as (_ & _ & Ht & He & _).
  unfold predict_page. rewrite He, Ht, Hnil. reflexivity.
Qed.

Lemma getitem_ok {A : Type} (l : list A) idx :
  idx < List.length l -> exists a, getitem l idx = Ok a.
Proof.
  intros H. unfold getitem.
  destruct (nth_error l idx) as [a |] eqn:Hn; [eauto |].
  apply nth_error_None in Hn. lia.
Qed.

Lemma getitem_inv {A : Type} (l : list A) idx a :
  getitem l idx = Ok a -> nth_error l idx = Some a.
Proof.
  unfold getitem. destruct (nth_error l idx); [| discriminate].
  now intros [= ->].
Qed.

Lemma embedding_make_result_total kb self query_text idx :
  init kb = Ok self ->
  idx < List.length (catalog_candidates kb) ->
  exists r, make_result self (similarities self query_text) idx = Ok r.
Proof.
  intros Hinit Hidx.
  destruct (init_ok kb self Hinit) as (Hkb & Hc & Ht & _ & Hwf).
  unfold make_result.
  destruct (getitem_ok (candidates self) idx) as (p & ->).
  { now rewrite Hc, length_map. }
  destruct (getitem_ok (candidate_texts self) idx) as (k & ->).
  { now rewrite Ht, length_map. }
  destruct (getitem_ok (similarities self query_text) idx) as (s & ->).
  { now rewrite (similarities_length kb self query_text Hinit). }
  simpl. unfold get_page_description. rewrite Hkb.
  destruct (SimplePredict.description_total (features kb) p Hwf) as (d & ->).
  simpl. eauto.
Qed.

(** A result is the candidate at its index, with the similarity at that
    index. *)
Lemma embedding_make_result_fields kb self row idx r :
  init kb = Ok self -> make_result self row idx = Ok r ->
  nth_error (catalog_candidates kb) idx = Some (r_page_name r, r_keyword r) /\
  nth_error row idx = Some (r_similarity_score r).
Proof.
  intros Hinit H. destruct (init_ok kb self Hinit) as (_ & Hc & Ht & _).
  unfold make_result in H.
  apply bind_ok in H as (p & Hp & H). apply bind_ok in H as (k & Hk & H).
  apply bind_ok in H as (s & Hs & H). apply bind_ok in H as (d & _ & H).
  injection H as <-. simpl.
  apply getitem_inv in Hp, Hk, Hs. split; [| exact Hs].
  rewrite Hc, nth_error_map in Hp. rewrite Ht, nth_error_map in Hk.
  destruct (nth_error (catalog_candidates kb) idx) as [[p' k'] |];
    simpl in Hp, Hk; congruence.
Qed.

(** With at least one candidate [predict_page] returns, one entry per top
    index. *)
Lemma predict_page_indices kb self query_text :
  init kb = Ok self -> catalog_candidates kb <> [] ->
  exists rs,
    predict_page self query_text = Ok rs /\
    Forall2 (fun idx r =>
               make_result self (similarities self query_text) idx = Ok r)
            (top_indices (similarities self query_text)) rs.
Proof.
  intros Hinit Hne. unfold predict_page.
  rewrite (cosine_similarity_ok kb self query_text Hinit Hne). simpl.
  destruct (collect_ok (make_result self (similarities self query_text))
              (top_indices (similarities self query_text)))
    with (acc := @nil (Prediction similarity)) as (rs & Hrs & HF).
  - intros idx Hidx. apply top_indices_range in Hidx.
    rewrite (similarities_length kb self query_text Hinit) in Hidx.
    now apply embedding_make_result_total with kb.
  - exists rs. split; [exact Hrs | exact HF].
Qed.

(** Whenever [predict_page] returns, the catalog has a candidate and the
    entries are those of the top indices. *)
Lemma predict_page_inv kb self query_text rs :
  init kb = Ok self -> predict_page self query_text = Ok rs ->
  catalog_candidates kb <> [] /\
  Forall2 (fun idx r =>
             make_result self (similarities self query_text) idx = Ok r)
          (top_indices (similarities self query_text)) rs.
Proof.
  intros Hinit Hrs.
  destruct (catalog_candidates kb) as [| c cs] eqn:Hc.
  - rewrite (predict_page_no_candidates kb self query_text Hinit Hc) in Hrs.
    discriminate.
  - assert (Hne : catalog_candidates kb <> []) by (rewrite Hc; discriminate).
    destruct (predict_page_indices kb self query_text Hinit Hne)
      as (rs' & Hrs' & HF).
    split; [discriminate |]. congruence.
Qed.

Lemma candidate_of_feature kb p keyword :
  In (p, keyword) (catalog_candidates kb) ->
  exists f, In f (features kb) /\ page_name f = Some p /\
            In keyword (keywords_of f).
Proof.
  unfold catalog_candidates. intros H.
  apply in_flat_map in H as (f & Hf & Hin). exists f.
  destruct (page_name f) as [p' |]; [| contradiction].
  apply in_map_iff in Hin as (k & [= -> ->] & Hk). auto.
Qed.

End Facts.

End EmbeddingFacts.

(** *** The order of the top indices *)

Lemma StronglySorted_snoc {A : Type} (R : A -> A -> Prop) l a :
  StronglySorted R l -> Forall (fun x => R x a) l ->
  StronglySorted R (l ++ [a]).
Proof.
  induction 1 as [| x l Hl IH Hx]; simpl; intros Ha.
  - constructor; constructor.
  - inversion Ha; subst. constructor; [auto |].
    apply Forall_app. split; [exact Hx | now constructor].
Qed.

Lemma StronglySorted_rev {A : Type} (R : A -> A -> Prop) l :
  StronglySorted R l -> StronglySorted (fun x y => R y x) (rev l).
Proof.
  induction 1 as [| x l Hl IH Hx]; simpl; [constructor |].
  apply StronglySorted_snoc; [exact IH | now apply Forall_rev].
Qed.

Lemma Forall_firstn {A : Type} (P : A -> Prop) n :
  forall l, Forall P l -> Forall P (firstn n l).
Proof.
  intros l H. apply Forall_forall. intros x Hx.
  rewrite Forall_forall in H. eapply H, In_firstn, Hx.
Qed.

Lemma StronglySorted_firstn {A : Type} (R : A -> A -> Prop) n :
  forall l, StronglySorted R l -> StronglySorted R (firstn n l).
Proof.
  induction n as [| n IH]; simpl; [constructor |].
  intros [| x l] H; [constructor |].
  inversion H; subst. constructor; [auto | now apply Forall_firstn].
Qed.

(** A sorted list stays sorted under a map that carries the order over,
    pairwise on the members of the list. *)
Lemma StronglySorted_map_in {A B : Type} (R : A -> A -> Prop)
  (R' : B -> B -> Prop) (f : A -> B) l :
  (forall x y, In x l -> In y l -> R x y -> R' (f x) (f y)) ->
  StronglySorted R l -> StronglySorted R' (map f l).
Proof.
  intros Hf H. induction H as [| x l Hl IH Hx]; simpl; [constructor |].
  constructor.
  - apply IH. intros a b Ha Hb. apply Hf; now right.
  - apply Forall_forall. intros b Hb.
    apply in_map_iff in Hb as (y & <- & Hy).
    rewrite Forall_forall in Hx. apply Hf; [now left | now right | auto].
Qed.

Module EmbeddingOrder.
Import Embedding.

Section Order.
Context {model : SentenceModel}.

(** The scores are ordered like numbers: [<] is asymmetric, and [>=] (the
    negation of [<]) is transitive.  This holds of floating-point numbers
    other than NaN. *)
Hypothesis sim_ltb_asym :
  forall a b, sim_ltb a b = true -> sim_ltb b a = false.
Hypothesis sim_ltb_negtrans :
  forall a b c, sim_ltb a b = false -> sim_ltb b c = false ->
                sim_ltb a c = false.

Lemma insert_asc_sorted x l :
  StronglySorted asc l -> Forall (fun y => fst x < fst y) l ->
  StronglySorted asc (insert_asc x l).
Proof.
  induction 1 as [| y l Hl IH Hy]; simpl; intros Hx.
  - constructor; constructor.
  - inversion Hx as [| ? ? Hxy Hxl]; subst.
    destruct (sim_ltb (snd y) (snd x)) eqn:Hlt.
    + constructor; [auto |].
      apply (Permutation_Forall
               (Permutation_sym (EmbeddingFacts.insert_asc_perm x l))).
      constructor; [| exact Hy].
      split; [now apply sim_ltb_asym | now left].
    + constructor; [now constructor |].
      constructor; [split; [exact Hlt | now right] |].
      rewrite Forall_forall in Hy, Hxl |- *. intros z Hz.
      destruct (Hy z Hz) as [Hzy _]. split; [| right; auto].
      now apply sim_ltb_negtrans with (snd y).
Qed.

Lemma sort_asc_sorted l :
  StronglySorted (fun x y : nat * similarity => fst x < fst y) l ->
  StronglySorted asc (sort_asc l).
Proof.
  induction 1 as [| x l Hl IH Hx]; simpl; [constructor |].
  apply insert_asc_sorted; [exact IH |].
  apply (Permutation_Forall
           (Permutation_sym (EmbeddingFacts.sort_asc_perm l))).
  exact Hx.
Qed.

Lemma top_indices_sorted row :
  StronglySorted (outranks row) (top_indices row).
Proof.
  unfold top_indices, argsort.
  rewrite <- map_rev, firstn_map.
  apply StronglySorted_map_in with (R := fun x y => asc y x).
  - intros [i si] [j sj] Hi Hj [Hge Hlt]. simpl in Hge, Hlt.
    apply In_firstn, in_rev in Hi. apply In_firstn, in_rev in Hj.
    apply (Permutation_in _ (EmbeddingFacts.sort_asc_perm _)) in Hi, Hj.
    apply combine_seq_In in Hi as [_ Hi], Hj as [_ Hj].
    rewrite Nat.sub_0_r in Hi, Hj.
    exists si, sj. simpl. auto.
  - apply StronglySorted_firstn, StronglySorted_rev, sort_asc_sorted.
    apply combine_seq_increasing.
Qed.

End Order.

End EmbeddingOrder.

(** * Properties of the specification *)

(** ** The lexical matcher's scores *)




Lemma scored_keys_NoDup {py : PyStr} kb self query_text :
  Simple.init kb = Ok self ->
  NoDup (dict_keys (scored self query_text)).
Proof.
  intros Hinit. unfold scored.
  pose proof (SimpleScore.counters_score_pages
                (Simple.query_words_of query_text)
                (Simple.keyword_to_page self)) as [Hnd _].
  destruct (Simple.score_pages (Simple.query_words_of query_text)
                               (Simple.keyword_to_page self)) as [| item ps].
  - simpl. unfold dict_keys at 1. rewrite map_map. simpl. rewrite map_id.
    now apply SimplePredict.loaded_page_keys_NoDup with kb.
  - exact Hnd.
Qed.

Lemma result_names_NoDup {py : PyStr} kb self query_text rs :
  Simple.init kb = Ok self -> Simple.predict_page self query_text = Ok rs ->
  NoDup (map (@r_page_name Q) rs).
Proof.
  intros Hinit Hrs.
  rewrite (SimpleHits.result_names kb self query_text rs Hinit Hrs).
  rewrite <- firstn_map. apply NoDup_firstn.
  apply (Permutation_NoDup
           (Permutation_sym (Permutation_map fst (sorted_desc_perm _)))).
  now apply scored_keys_NoDup with kb.
Qed.

(** C10: in the lexical matcher, when some query word and some keyword
    stand in substring containment, [predict_page] returns only pages with
    a raw hit count of at least 1, each page name at most once; pages
    without a hit are left out, so that a catalog of six pages can give a
    single result. *)
Theorem lexical_match_only_hit_pages {py : PyStr} :
  (forall kb self query_text,
     Simple.init kb = Ok self -> some_match kb query_text ->
     exists rs,
       Simple.predict_page self query_text = Ok rs /\
       (forall r, In r rs -> 1 <= hit_count kb query_text (r_page_name r)) /\
       NoDup (map (@r_page_name Q) rs)) /\
  (exists rs,
     5 <= List.length (page_names kb_six) /\
     some_match (py := ascii_str) kb_six "k3" /\
     Simple.predict_page (py := ascii_str) (simple_of kb_six) "k3" = Ok rs /\
     List.length rs = 1).
Proof.
  split.
  - intros kb self query_text Hinit Hmatch.
    destruct (SimplePredict.predict_page_items kb self query_text Hinit)
      as (rs & Hrs & _).
    exists rs. split; [exact Hrs |]. split.
    + intros r Hr.
      destruct (SimpleHits.result_scored kb self query_text rs r Hinit Hrs Hr)
        as (n & Hin & _).
      destruct (SimplePredict.scored_item kb self query_text _ n Hinit Hin)
        as (Hn & _ & Hpos).
      rewrite <- Hn. apply Hpos.
      now apply SimpleHits.some_match_scores_nonempty with kb.
    + now apply result_names_NoDup with kb self query_text.
  - eexists. split; [simpl; lia |]. split; [| split; reflexivity].
    exists "k3", (feature_of "p3" ["k3"]), "k3".
    repeat split; simpl; auto.
Qed.

Lemma lexical_match_only_hit_pages_witness :
  exists rs,
    Simple.predict_page (py := ascii_str) (simple_of kb_two) "harvest time"
    = Ok rs /\
    (forall r, In r rs ->
       1 <= hit_count (py := ascii_str) kb_two "harvest time"
                      (r_page_name r)) /\
    NoDup (map (@r_page_name Q) rs).
Proof.
  apply (proj1 (lexical_match_only_hit_pages (py := ascii_str)) kb_two
           (simple_of kb_two) "harvest time").
  - reflexivity.
  - exists "harvest", (feature_of "yield" ["harvest"]), "harvest".
    repeat split; simpl; auto.
Defined.

(** C2, the claim as stated fails: six pages, no match, and the sixth
    page is not returned. *)
Lemma lexical_no_match_drops_sixth_page :
  no_match (py := ascii_str) kb_six "zzz" /\
  List.length (page_names kb_six) = 6 /\
  Simple.init kb_six = Ok (simple_of kb_six) /\
  exists rs,
    Simple.predict_page (py := ascii_str) (simple_of kb_six) "zzz" = Ok rs /\
    map (@r_page_name Q) rs = ["p1"; "p2"; "p3"; "p4"; "p5"].
Proof.
  split; [| repeat (split; [reflexivity |]); eexists; split; reflexivity].
  intros word f keyword Hw Hf Hk. simpl in Hw. destruct Hw as [<- | []].
  simpl in Hf.
  repeat (destruct Hf as [<- | Hf];
          [simpl in Hk; destruct Hk as [<- | []]; reflexivity |]).
  contradiction.
Qed.

(** C2, amended: in the lexical matcher, for every query without a match,
    [predict_page] returns the first five page names of the catalog (in
    catalog order, every name once; all of them when there are at most
    five), each with score 0. *)
Theorem lexical_no_match_first_five {py : PyStr} kb self query_text :
  Simple.init kb = Ok self -> no_match kb query_text ->
  exists rs,
    Simple.predict_page self query_text = Ok rs /\
    map (@r_page_name Q) rs =
      firstn 5 (first_occurrences [] (page_names kb)) /\
    (forall r, In r rs -> (r_similarity_score r == 0)%Q).
Proof.
  intros Hinit Hno.
  destruct (SimplePredict.predict_page_items kb self query_text Hinit)
    as (rs & Hrs & _).
  pose proof (SimpleHits.no_match_scores_empty kb self query_text Hinit Hno)
    as Hempty.
  assert (Hscored : scored self query_text =
                    map (fun page => (page, 0))
                        (first_occurrences [] (page_names kb))).
  { unfold scored. rewrite Hempty. simpl.
    now rewrite (SimplePredict.loaded_page_keys kb self Hinit). }
  exists rs. split; [exact Hrs |]. split.
  - rewrite (SimpleHits.result_names kb self query_text rs Hinit Hrs).
    rewrite Hscored, (sorted_desc_ties _ 0).
    + rewrite <- firstn_map, map_map. simpl. now rewrite map_id.
    + apply Forall_forall. intros item Hitem.
      apply in_map_iff in Hitem as (p & <- & _). reflexivity.
  - intros r Hr.
    destruct (SimpleHits.result_scored kb self query_text rs r Hinit Hrs Hr)
      as (n & Hin & ->).
    rewrite Hscored in Hin. apply in_map_iff in Hin as (p & [= _ <-] & _).
    reflexivity.
Qed.

Lemma lexical_no_match_first_five_witness :
  exists rs,
    Simple.predict_page (py := ascii_str) (simple_of kb_two) "zzz" = Ok rs /\
    map (@r_page_name Q) rs =
      firstn 5 (first_occurrences [] (page_names kb_two)) /\
    (forall r, In r rs -> (r_similarity_score r == 0)%Q).
Proof.
  apply (lexical_no_match_first_five (py := ascii_str) kb_two
           (simple_of kb_two) "zzz").
  - reflexivity.
  - intros word f keyword Hw Hf Hk. simpl in Hw. destruct Hw as [<- | []].
    simpl in Hf.
    repeat (destruct Hf as [<- | Hf];
            [simpl in Hk; destruct Hk as [<- | []]; reflexivity |]).
    contradiction.
Defined.

(** ** Non-empty results and the top five *)

Lemma result_length {py : PyStr} kb self query_text rs :
  Simple.init kb = Ok self -> Simple.predict_page self query_text = Ok rs ->
  List.length rs =
  Nat.min 5 (List.length (scored self query_text)).
Proof.
  intros Hinit Hrs.
  rewrite <- (Forall2_length_eq _ _ _
                (SimpleHits.result_items kb self query_text rs Hinit Hrs)).
  rewrite length_firstn.
  now rewrite (Permutation_length (sorted_desc_perm _)).
Qed.

Lemma scored_nonempty {py : PyStr} kb self query_text :
  Simple.init kb = Ok self -> features kb <> [] ->
  scored self query_text <> [].
Proof.
  intros Hinit Hne. unfold scored.
  destruct (Simple.score_pages (Simple.query_words_of query_text)
                               (Simple.keyword_to_page self)) as [| item ps];
    [| discriminate].
  simpl. rewrite (SimplePredict.loaded_page_keys kb self Hinit).
  destruct (SimplePredict.loaded_features kb self Hinit) as [_ Hwf].
  unfold page_names. destruct (features kb) as [| f fs]; [contradiction |].
  inversion Hwf as [| ? ? (p & ks & Hp & _) _]; subst.
  simpl. rewrite Hp. simpl. discriminate.
Qed.

(** C1, the claim as stated fails: a catalog with one page and no keyword
    loads in the embedding matcher, and [predict_page] raises instead of
    returning a non-empty list. *)
Lemma embedding_predict_raises_without_keywords :
  List.length (features kb_unused) = 1 /\
  Embedding.init (model := length_model) kb_unused
  = Ok (embedding_of kb_unused) /\
  Embedding.predict_page (embedding_of kb_unused) "yield" = Raise ValueError.
Proof. repeat split. Qed.

(** C1, amended: for every catalog with at least one page, the lexical
    matcher's [predict_page] returns a non-empty list on any query, also
    when every keyword list is empty; the embedding matcher's returns a
    non-empty list when the catalog has at least one keyword, and raises
    [ValueError] when it has none. *)
Theorem predict_nonempty {py : PyStr} {model : SentenceModel} kb query_text :
  features kb <> [] ->
  (forall self, Simple.init kb = Ok self ->
     exists rs, Simple.predict_page self query_text = Ok rs /\ rs <> []) /\
  (forall self, Embedding.init kb = Ok self ->
     (catalog_candidates kb <> [] ->
      exists rs, Embedding.predict_page self query_text = Ok rs /\ rs <> []) /\
     (catalog_candidates kb = [] ->
      Embedding.predict_page self query_text = Raise ValueError)).
Proof.
  intros Hne. split.
  - intros self Hinit.
    destruct (SimplePredict.predict_page_items kb self query_text Hinit)
      as (rs & Hrs & _).
    exists rs. split; [exact Hrs |]. intros ->.
    pose proof (result_length kb self query_text [] Hinit Hrs) as Hlen.
    pose proof (scored_nonempty kb self query_text Hinit Hne) as Hsc.
    destruct (scored self query_text); [congruence |].
    simpl in Hlen. lia.
  - intros self Hinit. split.
    + intros Hc.
      destruct (EmbeddingFacts.predict_page_indices kb self query_text Hinit Hc)
        as (rs & Hrs & HF).
      exists rs. split; [exact Hrs |]. intros ->.
      apply Forall2_length_eq in HF.
      rewrite EmbeddingFacts.top_indices_length in HF.
      rewrite (EmbeddingFacts.similarities_length kb self query_text Hinit)
        in HF.
      destruct (catalog_candidates kb); [congruence | simpl in HF; lia].
    + now apply EmbeddingFacts.predict_page_no_candidates.
Qed.

Lemma predict_nonempty_witness :
  (forall self, Simple.init kb_unused_first = Ok self ->
     exists rs,
       Simple.predict_page (py := ascii_str) self "harvest" = Ok rs /\
       rs <> []) /\
  (forall self, Embedding.init (model := length_model) kb_unused_first
                = Ok self ->
     (catalog_candidates kb_unused_first <> [] ->
      exists rs, Embedding.predict_page self "harvest" = Ok rs /\ rs <> []) /\
     (catalog_candidates kb_unused_first = [] ->
      Embedding.predict_page self "harvest" = Raise ValueError)).
Proof.
  apply (predict_nonempty (py := ascii_str) (model := length_model)
           kb_unused_first "harvest").
  simpl. discriminate.
Defined.

(** ** Loading *)

Lemma simple_load_raises fs :
  (exists f, In f fs /\ page_name f = None) ->
  forall st, exists key,
    for_each Simple.index_feature fs st = Raise (KeyError key).
Proof.
  induction fs as [| f0 fs IH]; intros (f & Hf & Hnone) st;
    [contradiction |].
  simpl. unfold Simple.index_feature at 1, get_page_name, get_keywords.
  destruct (page_name f0) as [p |] eqn:Hp; simpl; [| eauto].
  destruct (keywords f0) as [ks |]; simpl; [| eauto].
  apply IH. destruct Hf as [-> | Hf]; [congruence | eauto].
Qed.

Lemma embedding_load_raises {model : SentenceModel} fs :
  (exists f, In f fs /\ page_name f = None) ->
  forall st, exists key,
    for_each Embedding.add_feature fs st = Raise (KeyError key).
Proof.
  induction fs as [| f0 fs IH]; intros (f & Hf & Hnone) st;
    [contradiction |].
  simpl. unfold Embedding.add_feature at 1, get_page_name, get_keywords.
  destruct (page_name f0) as [p |] eqn:Hp; simpl; [| eauto].
  destruct (keywords f0) as [ks |]; simpl; [| eauto].
  apply IH. destruct Hf as [-> | Hf]; [congruence | eauto].
Qed.

(** C3, the claim as stated fails: a catalog with zero pages loads, in
    both matchers, and an empty index is built. *)
Lemma empty_catalog_loads :
  Simple.init kb_empty
  = Ok {| Simple.knowledge_base := kb_empty; Simple.keyword_to_page := [];
          Simple.page_keywords := [] |} /\
  Embedding.init (model := length_model) kb_empty
  = Ok {| Embedding.knowledge_base := kb_empty; Embedding.candidates := [];
          Embedding.candidate_texts := [];
          Embedding.candidate_embeddings := Some [] |}.
Proof. split; reflexivity. Qed.

(** C3, amended: when some page record lacks [page_name], both
    constructors raise [KeyError] (the code has no other error for a
    malformed catalog) and build no predictor: no keyword map, candidate
    list or embeddings. *)
Theorem load_raises_without_page_name {model : SentenceModel} kb :
  (exists f, In f (features kb) /\ page_name f = None) ->
  (exists key, Simple.init kb = Raise (KeyError key)) /\
  (exists key, Embedding.init kb = Raise (KeyError key)).
Proof.
  intros Hbad. split.
  - unfold Simple.init, Simple.prepare_keyword_index. simpl.
    destruct (simple_load_raises (features kb) Hbad ([], [])) as (key & ->).
    simpl. eauto.
  - unfold Embedding.init, Embedding.prepare_candidates. simpl.
    destruct (embedding_load_raises (features kb) Hbad ([], []))
      as (key & ->).
    simpl. eauto.
Qed.

Lemma load_raises_without_page_name_witness :
  (exists key, Simple.init kb_nameless = Raise (KeyError key)) /\
  (exists key,
     Embedding.init (model := length_model) kb_nameless
     = Raise (KeyError key)).
Proof.
  apply (load_raises_without_page_name (model := length_model) kb_nameless).
  eexists. split; [right; left; reflexivity | reflexivity].
Defined.

(** ** The ranking of the embedding matcher *)




(** ** The top five *)

Lemma name_of_feature kb f p :
  In f (features kb) -> page_name f = Some p -> In p (page_names kb).
Proof.
  intros Hf Hp. unfold page_names. apply in_flat_map.
  exists f. split; [exact Hf |]. rewrite Hp. now left.
Qed.

(** With fewer than five scored pages, every scored page is returned. *)
Lemma few_results_all_scored {py : PyStr} kb self query_text rs p :
  Simple.init kb = Ok self -> Simple.predict_page self query_text = Ok rs ->
  List.length rs < 5 ->
  In p (dict_keys (scored self query_text)) ->
  In p (map (@r_page_name Q) rs).
Proof.
  intros Hinit Hrs Hlen Hp.
  rewrite (SimpleHits.result_names kb self query_text rs Hinit Hrs).
  rewrite (result_length kb self query_text rs Hinit Hrs) in Hlen.
  rewrite firstn_all2.
  - apply (Permutation_in _
             (Permutation_sym (Permutation_map fst (sorted_desc_perm _)))).
    exact Hp.
  - rewrite (Permutation_length (sorted_desc_perm _)). lia.
Qed.

(** C5, the claim as stated fails: the catalog has two candidates, fewer
    than five, and the lexical matcher returns one of the two pages
    only. *)
Lemma lexical_omits_page_without_hit :
  List.length (catalog_candidates kb_two) = 2 /\
  page_names kb_two = ["irrigation"; "yield"] /\
  Simple.init kb_two = Ok (simple_of kb_two) /\
  exists rs,
    Simple.predict_page (py := ascii_str) (simple_of kb_two) "water" = Ok rs /\
    map (@r_page_name Q) rs = ["irrigation"].
Proof.
  repeat (split; [reflexivity |]). eexists. split; reflexivity.
Qed.

(** C5, amended: [predict_page] returns at most five results, each of a
    page of the catalog.  The lexical matcher always returns, and with
    fewer than five results these are all the pages with a hit (all the
    pages of the catalog when the query has no match).  The embedding
    matcher returns when the catalog has at least one keyword, five
    results or else one for every candidate. *)
Theorem predict_top_five {py : PyStr} {model : SentenceModel} kb query_text :
  (forall self, Simple.init kb = Ok self ->
     exists rs,
       Simple.predict_page self query_text = Ok rs /\
       List.length rs <= 5 /\
       (forall r, In r rs -> In (r_page_name r) (page_names kb)) /\
       (List.length rs < 5 ->
        forall p,
          1 <= hit_count kb query_text p \/
          (no_match kb query_text /\ In p (page_names kb)) ->
          In p (map (@r_page_name Q) rs))) /\
  (forall self, Embedding.init kb = Ok self ->
     (catalog_candidates kb <> [] ->
      exists rs, Embedding.predict_page self query_text = Ok rs) /\
     (forall rs, Embedding.predict_page self query_text = Ok rs ->
        List.length rs = Nat.min 5 (List.length (catalog_candidates kb)) /\
        (forall r, In r rs ->
           In (r_page_name r, r_keyword r) (catalog_candidates kb) /\
           In (r_page_name r) (page_names kb)) /\
        (List.length (catalog_candidates kb) < 5 ->
         forall c, In c (catalog_candidates kb) ->
           exists r, In r rs /\ (r_page_name r, r_keyword r) = c))).
Proof.
  split.
  - intros self Hinit.
    destruct (SimplePredict.predict_page_items kb self query_text Hinit)
      as (rs & Hrs & _).
    exists rs. split; [exact Hrs |].
    pose proof (result_length kb self query_text rs Hinit Hrs) as Hlen.
    split; [lia |]. split.
    + intros r Hr.
      destruct (SimpleHits.result_scored kb self query_text rs r Hinit Hrs Hr)
        as (n & Hin & _).
      now destruct (SimplePredict.scored_item kb self query_text _ n Hinit Hin)
        as (_ & Hp & _).
    + intros Hfew p Hp.
      apply (few_results_all_scored kb self query_text rs p Hinit Hrs Hfew).
      unfold scored. destruct Hp as [Hhit | [Hno Hp]].
      * rewrite <- (SimpleScore.count_score_pages kb self query_text p Hinit)
          in Hhit.
        unfold count_at in Hhit.
        destruct (dict_get (Simple.score_pages
                              (Simple.query_words_of query_text)
                              (Simple.keyword_to_page self)) p)
          as [n |] eqn:Hg; [| lia].
        apply dict_get_In in Hg.
        destruct (Simple.score_pages (Simple.query_words_of query_text)
                                     (Simple.keyword_to_page self));
          [contradiction |].
        simpl Simple.with_fallback.
        change p with (fst (p, n)). now apply in_map.
      * rewrite (SimpleHits.no_match_scores_empty kb self query_text Hinit Hno).
        simpl. unfold dict_keys at 1. rewrite map_map. simpl. rewrite map_id.
        rewrite (SimplePredict.loaded_page_keys kb self Hinit).
        destruct (SimpleLoad.first_occurrences_In p (page_names kb) [] Hp)
          as [[] | H]; exact H.
  - intros self Hinit. split.
    + intros Hc.
      destruct (EmbeddingFacts.predict_page_indices kb self query_text Hinit Hc)
        as (rs & Hrs & _).
      eauto.
    + intros rs Hrs.
      destruct (EmbeddingFacts.predict_page_inv kb self query_text rs Hinit Hrs)
        as (_ & HF).
      pose proof (EmbeddingFacts.similarities_length kb self query_text Hinit)
        as Hrow.
      split; [| split].
      * rewrite <- (Forall2_length_eq _ _ _ HF).
        now rewrite EmbeddingFacts.top_indices_length, Hrow.
      * intros r Hr.
        destruct (Forall2_In_r _ _ _ r HF Hr) as (idx & _ & Hmk).
        apply (EmbeddingFacts.embedding_make_result_fields
                 kb self _ idx r Hinit)
          in Hmk as (Hc & _).
        apply nth_error_In in Hc. split; [exact Hc |].
        apply EmbeddingFacts.candidate_of_feature in Hc as (f & Hf & Hp & _).
        now apply name_of_feature with f.
      * intros Hfew c Hc.
        apply In_nth_error in Hc as (idx & Hidx).
        assert (Hlt : idx < List.length (catalog_candidates kb)).
        { apply nth_error_Some. congruence. }
        assert (Hin : In idx (Embedding.top_indices
                                (similarities self query_text))).
        { apply EmbeddingFacts.top_indices_all; rewrite Hrow; lia. }
        destruct (Forall2_In_l _ _ _ idx HF Hin) as (r & Hr & Hmk).
        apply (EmbeddingFacts.embedding_make_result_fields
                 kb self _ idx r Hinit)
          in Hmk as (Hc & _).
        exists r. split; [exact Hr | congruence].
Qed.

Lemma predict_top_five_witness :
  exists rs,
    Simple.predict_page (py := ascii_str) (simple_of kb_six) "k1 k2" = Ok rs /\
    List.length rs <= 5 /\
    (forall r, In r rs -> In (r_page_name r) (page_names kb_six)) /\
    (List.length rs < 5 ->
     forall p,
       1 <= hit_count (py := ascii_str) kb_six "k1 k2" p \/
       (no_match (py := ascii_str) kb_six "k1 k2" /\
        In p (page_names kb_six)) ->
       In p (map (@r_page_name Q) rs)).
Proof.
  apply (proj1 (predict_top_five (py := ascii_str) (model := length_model)
                  kb_six "k1 k2") (simple_of kb_six)).
  reflexivity.
Defined.

(** ** Pages without keywords *)

Lemma no_match_result_names {py : PyStr} kb self query_text rs :
  Simple.init kb = Ok self -> no_match kb query_text ->
  Simple.predict_page self query_text = Ok rs ->
  map (@r_page_name Q) rs = firstn 5 (first_occurrences [] (page_names kb)).
Proof.
  intros Hinit Hno Hrs.
  rewrite (SimpleHits.result_names kb self query_text rs Hinit Hrs).
  unfold scored.
  rewrite (SimpleHits.no_match_scores_empty kb self query_text Hinit Hno).
  simpl Simple.with_fallback.
  rewrite (SimplePredict.loaded_page_keys kb self Hinit).
  rewrite (sorted_desc_ties _ 0).
  - rewrite <- firstn_map, map_map. simpl. now rewrite map_id.
  - apply Forall_forall. intros item Hitem.
    apply in_map_iff in Hitem as (p & <- & _). reflexivity.
Qed.

Lemma first_occurrences_head l :
  firstn 1 (first_occurrences [] l) = firstn 1 l.
Proof. destruct l as [| x l]; reflexivity. Qed.

(** C7, the claim as stated fails: in the lexical matcher a page without
    keywords, first in the catalog, is the top prediction of a query
    without a match. *)
Lemma lexical_top_prediction_without_keywords :
  page_keyword_occurrences kb_unused_first "unused" = [] /\
  Simple.init kb_unused_first = Ok (simple_of kb_unused_first) /\
  exists rs,
    Simple.predict_page (py := ascii_str) (simple_of kb_unused_first) "zzz"
    = Ok rs /\
    map (@r_page_name Q) (firstn 1 rs) = ["unused"].
Proof.
  repeat (split; [reflexivity |]). eexists. split; reflexivity.
Qed.

(** C7, amended: in the embedding matcher every returned page has the
    reported keyword among its keywords, so a page whose keyword list is
    empty is never returned; in the lexical matcher a page whose keyword
    list is empty is never returned for a query with a match, whereas for
    a query without a match the top prediction is the first page of the
    catalog, with or without keywords. *)
Theorem empty_keyword_page_ranking {py : PyStr} {model : SentenceModel}
  kb query_text :
  (forall self rs r,
     Embedding.init kb = Ok self ->
     Embedding.predict_page self query_text = Ok rs -> In r rs ->
     In (r_keyword r) (page_keyword_occurrences kb (r_page_name r))) /\
  (forall self rs r,
     Simple.init kb = Ok self -> some_match kb query_text ->
     Simple.predict_page self query_text = Ok rs -> In r rs ->
     page_keyword_occurrences kb (r_page_name r) <> []) /\
  (forall self rs,
     Simple.init kb = Ok self -> no_match kb query_text ->
     Simple.predict_page self query_text = Ok rs ->
     map (@r_page_name Q) (firstn 1 rs) = firstn 1 (page_names kb)).
Proof.
  split; [| split].
  - intros self rs r Hinit Hrs Hr.
    destruct (EmbeddingFacts.predict_page_inv kb self query_text rs Hinit Hrs)
      as (_ & HF).
    destruct (Forall2_In_r _ _ _ r HF Hr) as (idx & _ & Hmk).
    apply (EmbeddingFacts.embedding_make_result_fields kb self _ idx r Hinit)
      in Hmk as (Hc & _).
    apply nth_error_In, EmbeddingFacts.candidate_of_feature in Hc
      as (f & Hf & Hp & Hk).
    now apply SimpleHits.occurrence_of_feature with f.
  - intros self rs r Hinit Hmatch Hrs Hr.
    destruct (SimpleHits.result_scored kb self query_text rs r Hinit Hrs Hr)
      as (n & Hin & _).
    destruct (SimplePredict.scored_item kb self query_text _ n Hinit Hin)
      as (Hn & _ & Hpos).
    apply SimpleHits.hit_has_keyword with query_text.
    rewrite <- Hn. apply Hpos.
    now apply SimpleHits.some_match_scores_nonempty with kb.
  - intros self rs Hinit Hno Hrs.
    rewrite <- firstn_map.
    rewrite (no_match_result_names kb self query_text rs Hinit Hno Hrs).
    rewrite firstn_firstn. simpl Nat.min. apply first_occurrences_head.
Qed.

Lemma empty_keyword_page_ranking_witness :
  exists rs,
    Simple.predict_page (py := ascii_str) (simple_of kb_unused_first) "zzz"
    = Ok rs /\
    map (@r_page_name Q) (firstn 1 rs) = firstn 1 (page_names kb_unused_first).
Proof.
  eexists. split; [reflexivity |].
  apply (proj2 (proj2 (empty_keyword_page_ranking (py := ascii_str)
                         (model := length_model) kb_unused_first "zzz"))
           (simple_of kb_unused_first)).
  - reflexivity.
  - intros word f keyword Hw Hf Hk. simpl in Hw. destruct Hw as [<- | []].
    simpl in Hf. destruct Hf as [<- | [<- | []]]; simpl in Hk.
    + contradiction.
    + destruct Hk as [<- | []]. reflexivity.
  - reflexivity.
Defined.

(** ** The reported keyword *)

(** C8, the code at the failing input: the query word ["abc"] contains the
    keyword ["ab"], which gives page [P] its hit, and the keyword reported
    for [P] is ["x"], which stands in no containment with the query. *)
Lemma lexical_reported_keyword_ignores_contained_keyword :
  contained (py := ascii_str) "abc" "ab" = true /\
  contained (py := ascii_str) "abc" "x" = false /\
  hit_count (py := ascii_str) kb_stem "abc" "P" = 1 /\
  Simple.init kb_stem = Ok (simple_of kb_stem) /\
  exists rs,
    Simple.predict_page (py := ascii_str) (simple_of kb_stem) "abc" = Ok rs /\
    map (@r_page_name Q) rs = ["P"] /\
    map (@r_keyword Q) rs = ["x"].
Proof.
  repeat (split; [reflexivity |]). eexists. repeat split.
Qed.

(** ** Determinism *)



(** * Further properties of the code *)

(** ** The index of the lexical matcher *)

Lemma first_occurrences_app l1 :
  forall seen l2,
    first_occurrences seen (l1 ++ l2) =
    first_occurrences seen l1 ++
    first_occurrences (seen ++ first_occurrences seen l1) l2.
Proof.
  induction l1 as [| x l1 IH]; simpl; intros seen l2.
  - now rewrite app_nil_r.
  - destruct (existsb (String.eqb x) seen); [apply IH |].
    simpl. rewrite IH. now rewrite <- app_assoc.
Qed.

Lemma find_append {A : Type} (P : A -> bool) l1 l2 :
  find P (l1 ++ l2) =
  match find P l1 with
  | Some x => Some x
  | None => find P l2
  end.
Proof.
  induction l1 as [| x l1 IH]; simpl; [reflexivity |].
  now destruct (P x).
Qed.

Module IndexFacts.
Import Simple.

Lemma pages_at_add_keyword d p k k' :
  pages_at (add_keyword d p k) k' =
  pages_at d k' ++ (if String.eqb k k' then [p] else []).
Proof.
  rewrite SimpleLoad.add_keyword_eq. unfold pages_at at 1.
  destruct (String.eqb_spec k k') as [<- | Hne].
  - now rewrite dict_get_set_eq.
  - rewrite dict_get_set_neq by exact Hne. fold (pages_at d k').
    now rewrite app_nil_r.
Qed.

Lemma pages_at_add_keywords p k' ks :
  forall d,
    pages_at (fold_left (fun d keyword => add_keyword d p keyword) ks d) k' =
    pages_at d k' ++
    map fst (filter (fun c : string * string => String.eqb (snd c) k')
                    (map (fun keyword => (p, keyword)) ks)).
Proof.
  induction ks as [| k ks IH]; simpl; intros d.
  - now rewrite app_nil_r.
  - rewrite IH, pages_at_add_keyword, <- app_assoc.
    now destruct (String.eqb k k').
Qed.

Lemma keys_add_keyword d p k :
  dict_keys (add_keyword d p k) =
  dict_keys d ++ first_occurrences (dict_keys d) [k].
Proof.
  rewrite SimpleLoad.add_keyword_eq, dict_keys_set. simpl.
  destruct (dict_mem d k) eqn:Hm.
  - apply dict_mem_true, SimpleLoad.existsb_eqb_In in Hm.
    rewrite Hm. now rewrite app_nil_r.
  - destruct (existsb (String.eqb k) (dict_keys d)) eqn:He; [| reflexivity].
    apply SimpleLoad.existsb_eqb_In, dict_mem_true in He. congruence.
Qed.

Lemma keys_add_keywords p ks :
  forall d,
    dict_keys (fold_left (fun d keyword => add_keyword d p keyword) ks d) =
    dict_keys d ++ first_occurrences (dict_keys d) ks.
Proof.
  induction ks as [| k ks IH]; intros d.
  - simpl. now rewrite app_nil_r.
  - simpl fold_left. rewrite IH, keys_add_keyword, <- app_assoc.
    f_equal. change (k :: ks) with ([k] ++ ks).
    now rewrite first_occurrences_app.
Qed.

Lemma entries_set d k v :
  entries (dict_set d k v) + List.length (pages_at d k) =
  entries d + List.length v.
Proof.
  unfold entries, total, pages_at.
  induction d as [| [k0 v0] d IH]; simpl; [lia |].
  destruct (String.eqb_spec k0 k) as [-> | Hne]; simpl; lia.
Qed.

Lemma entries_add_keywords p ks :
  forall d,
    entries (fold_left (fun d keyword => add_keyword d p keyword) ks d) =
    entries d + List.length ks.
Proof.
  induction ks as [| k ks IH]; simpl; intros d; [lia |].
  rewrite IH, SimpleLoad.add_keyword_eq.
  pose proof (entries_set d k (pages_at d k ++ [p])) as H.
  rewrite length_app in H. simpl in H. lia.
Qed.

(** What the loading loop leaves in the two dictionaries. *)
Lemma loaded_index fs :
  forall st st',
    for_each index_feature fs st = Ok st' ->
    (forall k,
       pages_at (fst st') k =
       pages_at (fst st) k ++ owners {| features := fs |} k) /\
    dict_keys (fst st') =
      dict_keys (fst st) ++
      first_occurrences (dict_keys (fst st))
        (map snd (catalog_candidates {| features := fs |})) /\
    entries (fst st') =
      entries (fst st) +
      List.length (catalog_candidates {| features := fs |}) /\
    (forall p,
       dict_get (snd st') p =
       match last_keywords {| features := fs |} p with
       | Some ks => Some ks
       | None => dict_get (snd st) p
       end).
Proof.
  unfold owners, last_keywords, catalog_candidates. simpl.
  induction fs as [| f fs IH]; simpl; intros st st' H.
  - injection H as <-. rewrite !app_nil_r. repeat split; auto.
    intros k. now rewrite app_nil_r.
  - apply bind_ok in H as (st1 & H1 & H2).
    apply SimpleLoad.index_feature_ok in H1 as (p & ks & Hp & Hk & ->).
    destruct (IH _ _ H2) as (Hpages & Hkeys & Hent & Hpk). simpl in *.
    assert (Hko : keywords_of f = ks) by (unfold keywords_of; now rewrite Hk).
    rewrite Hp, Hko. repeat split.
    + intros k. rewrite Hpages, pages_at_add_keywords, <- app_assoc.
      now rewrite filter_app, map_app.
    + rewrite Hkeys, keys_add_keywords, <- app_assoc. f_equal.
      rewrite map_app, map_map. simpl. rewrite map_id.
      now rewrite first_occurrences_app.
    + rewrite Hent, entries_add_keywords, length_app, length_map. lia.
    + intros q. rewrite Hpk, find_append.
      destruct (find (fun f0 => has_name f0 q) (rev fs)); [reflexivity |].
      simpl. unfold has_name at 1. rewrite Hp.
      destruct (String.eqb_spec p q) as [-> | Hne]; simpl.
      * now rewrite dict_get_set_eq, Hko.
      * now rewrite dict_get_set_neq.
Qed.

End IndexFacts.

Lemma simple_init_state kb self :
  Simple.init kb = Ok self ->
  exists st,
    for_each Simple.index_feature (features kb) ([], []) = Ok st /\
    Simple.keyword_to_page self = fst st /\
    Simple.page_keywords self = snd st.
Proof.
  unfold Simple.init, Simple.prepare_keyword_index. simpl. intros H.
  apply bind_ok in H as (st & Hst & Hself). injection Hself as <-.
  exists st. auto.
Qed.

(** X1: after loading, [keyword_to_page[k]] is the list of the pages of
    the candidates with keyword [k], in catalog order, once per
    occurrence; a string that is no keyword of the catalog is no key. *)
Theorem keyword_to_page_lookup kb self k :
  Simple.init kb = Ok self ->
  dict_get (Simple.keyword_to_page self) k =
  match owners kb k with
  | [] => None
  | p :: ps => Some (p :: ps)
  end.
Proof.
  intros Hinit.
  destruct (simple_init_state kb self Hinit) as (st & Hst & -> & _).
  destruct (IndexFacts.loaded_index (features kb) _ _ Hst)
    as (Hpages & Hkeys & _).
  specialize (Hpages k). simpl in Hpages, Hkeys.
  replace {| features := features kb |} with kb in * by now destruct kb.
  unfold pages_at in Hpages.
  destruct (dict_get (fst st) k) as [v |] eqn:Hg.
  - subst v. destruct (owners kb k) as [| p ps] eqn:Ho; [| reflexivity].
    exfalso. apply dict_get_In in Hg.
    apply (in_map fst) in Hg. simpl in Hg. fold (dict_keys (fst st)) in Hg.
    rewrite Hkeys in Hg. apply SimpleLoad.first_occurrences_incl in Hg.
    apply in_map_iff in Hg as (c & Hc & Hin).
    assert (Hown : In (fst c) (owners kb k)).
    { unfold owners. apply in_map, filter_In. split; [exact Hin |].
      rewrite Hc. apply String.eqb_refl. }
    rewrite Ho in Hown. contradiction.
  - now rewrite <- Hpages.
Qed.

Lemma keyword_to_page_lookup_witness :
  dict_get (Simple.keyword_to_page (simple_of kb_twice)) "crop" =
  match owners kb_twice "crop" with
  | [] => None
  | p :: ps => Some (p :: ps)
  end.
Proof.
  apply (keyword_to_page_lookup kb_twice (simple_of kb_twice) "crop").
  reflexivity.
Defined.

(** X2: after loading, the keys of [keyword_to_page] are the keywords of
    the catalog and the keys of [page_keywords] its page names, each once,
    in the order of first occurrence in the catalog: the order in which
    the scoring loop scans the keywords. *)
Theorem index_keys_in_catalog_order kb self :
  Simple.init kb = Ok self ->
  dict_keys (Simple.keyword_to_page self) =
    first_occurrences [] (map snd (catalog_candidates kb)) /\
  dict_keys (Simple.page_keywords self) =
    first_occurrences [] (page_names kb) /\
  NoDup (dict_keys (Simple.keyword_to_page self)) /\
  NoDup (dict_keys (Simple.page_keywords self)).
Proof.
  intros Hinit.
  destruct (simple_init_state kb self Hinit) as (st & Hst & Hk & Hp).
  destruct (IndexFacts.loaded_index (features kb) _ _ Hst) as (_ & Hkeys & _).
  simpl in Hkeys.
  replace {| features := features kb |} with kb in * by now destruct kb.
  rewrite Hk, Hkeys. split; [reflexivity |].
  split; [now apply SimplePredict.loaded_page_keys |].
  split; [| now apply SimplePredict.loaded_page_keys_NoDup with kb].
  rewrite <- Hkeys.
  assert (Hgen : forall fs st0 st1,
             for_each Simple.index_feature fs st0 = Ok st1 ->
             NoDup (dict_keys (fst st0)) -> NoDup (dict_keys (fst st1))).
  { clear. induction fs as [| f fs IH]; simpl; intros st0 st1 H Hnd.
    - now injection H as <-.
    - apply bind_ok in H as (st2 & H1 & H2).
      apply SimpleLoad.index_feature_ok in H1 as (p & ks & _ & _ & ->).
      apply (IH _ _ H2). simpl. clear H2.
      generalize dependent (fst st0). induction ks as [| k ks IHk];
        simpl; intros d Hd; [exact Hd |].
      apply IHk. rewrite SimpleLoad.add_keyword_eq.
      now apply dict_set_NoDup. }
  apply (Hgen _ _ _ Hst). constructor.
Qed.

Lemma index_keys_in_catalog_order_witness :
  dict_keys (Simple.keyword_to_page (simple_of kb_twice)) =
    first_occurrences [] (map snd (catalog_candidates kb_twice)) /\
  dict_keys (Simple.page_keywords (simple_of kb_twice)) =
    first_occurrences [] (page_names kb_twice) /\
  NoDup (dict_keys (Simple.keyword_to_page (simple_of kb_twice))) /\
  NoDup (dict_keys (Simple.page_keywords (simple_of kb_twice))).
Proof.
  apply (index_keys_in_catalog_order kb_twice (simple_of kb_twice)).
  reflexivity.
Defined.

(** X3: after loading, [page_keywords[p]] is the keyword list of the last
    feature named [p]: a later feature of the same name replaces the
    list of an earlier one, while [keyword_to_page] keeps the keywords of
    both.  A name that no feature has is no key. *)
Theorem page_keywords_of_last_feature kb self p :
  Simple.init kb = Ok self ->
  dict_get (Simple.page_keywords self) p = last_keywords kb p.
Proof.
  intros Hinit.
  destruct (simple_init_state kb self Hinit) as (st & Hst & _ & ->).
  destruct (IndexFacts.loaded_index (features kb) _ _ Hst)
    as (_ & _ & _ & Hpk).
  specialize (Hpk p). simpl in Hpk.
  replace {| features := features kb |} with kb in * by now destruct kb.
  rewrite Hpk. now destruct (last_keywords kb p).
Qed.

Lemma page_keywords_of_last_feature_witness :
  dict_get (Simple.page_keywords (simple_of kb_twice)) "yield"
  = last_keywords kb_twice "yield".
Proof.
  apply (page_keywords_of_last_feature kb_twice (simple_of kb_twice) "yield").
  reflexivity.
Defined.

(** ** The candidates of the embedding matcher *)

Lemma combine_fst_snd {A B : Type} (l : list (A * B)) :
  combine (map fst l) (map snd l) = l.
Proof.
  induction l as [| [a b] l IH]; simpl; [reflexivity | now rewrite IH].
Qed.

Lemma add_features_total {model : SentenceModel} fs :
  Forall (fun f => exists p ks, page_name f = Some p /\ keywords f = Some ks)
         fs ->
  forall st, exists st', for_each Embedding.add_feature fs st = Ok st'.
Proof.
  induction 1 as [| f fs (p & ks & Hp & Hk) _ IH]; simpl; intros st; [eauto |].
  unfold Embedding.add_feature at 1, get_page_name, get_keywords.
  rewrite Hp, Hk. simpl. apply IH.
Qed.

(** X4: after construction, the embedding matcher's [candidates] and
    [candidate_texts] are the pages and the keywords of the catalog's
    (page, keyword) pairs, position by position, and there is one
    embedding per candidate, the encoding of its text. *)
Theorem candidates_aligned {model : SentenceModel} kb self :
  Embedding.init kb = Ok self ->
  combine (Embedding.candidates self) (Embedding.candidate_texts self)
  = catalog_candidates kb /\
  List.length (Embedding.candidates self)
  = List.length (Embedding.candidate_texts self) /\
  exists embs,
    Embedding.candidate_embeddings self = Some embs /\
    List.length embs = List.length (Embedding.candidates self) /\
    forall i text,
      nth_error (Embedding.candidate_texts self) i = Some text ->
      nth_error embs i = Some (encode_text text).
Proof.
  intros Hinit.
  destruct (EmbeddingFacts.init_ok kb self Hinit) as (_ & Hc & Ht & He & _).
  split; [rewrite Hc, Ht; apply combine_fst_snd |].
  split; [now rewrite Hc, Ht, !length_map |].
  exists (Embedding.encode (Embedding.candidate_texts self)).
  split; [exact He |]. unfold Embedding.encode.
  split; [now rewrite Hc, Ht, !length_map |].
  intros i text Hi. now rewrite nth_error_map, Hi.
Qed.

Lemma candidates_aligned_witness :
  combine (Embedding.candidates (embedding_of kb_twice))
          (Embedding.candidate_texts (embedding_of kb_twice))
  = catalog_candidates kb_twice /\
  List.length (Embedding.candidates (embedding_of kb_twice))
  = List.length (Embedding.candidate_texts (embedding_of kb_twice)) /\
  exists embs,
    Embedding.candidate_embeddings (embedding_of kb_twice) = Some embs /\
    List.length embs
    = List.length (Embedding.candidates (embedding_of kb_twice)) /\
    forall i text,
      nth_error (Embedding.candidate_texts (embedding_of kb_twice)) i
      = Some text ->
      nth_error embs i
      = Some (encode_text (SentenceModel := length_model) text).
Proof.
  apply (candidates_aligned (model := length_model) kb_twice
           (embedding_of kb_twice)).
  reflexivity.
Defined.

(** X5: [prepare_candidates] does not reset the lists it fills: run again
    on a constructed predictor it returns one with every candidate
    twice, the second copy after the first. *)
Theorem prepare_candidates_again_doubles {model : SentenceModel} kb self :
  Embedding.init kb = Ok self ->
  exists self',
    Embedding.prepare_candidates self = Ok self' /\
    Embedding.candidates self' =
      Embedding.candidates self ++ Embedding.candidates self /\
    Embedding.candidate_texts self' =
      Embedding.candidate_texts self ++ Embedding.candidate_texts self /\
    Embedding.candidate_embeddings self' =
      Some (Embedding.encode (Embedding.candidate_texts self ++
                              Embedding.candidate_texts self)).
Proof.
  intros Hinit.
  destruct (EmbeddingFacts.init_ok kb self Hinit) as (Hkb & Hc & Ht & _ & Hwf).
  unfold Embedding.prepare_candidates. rewrite Hkb.
  destruct (add_features_total (features kb) Hwf
              (Embedding.candidates self, Embedding.candidate_texts self))
    as (st & Hst).
  rewrite Hst. simpl. eexists. split; [reflexivity |]. simpl.
  apply EmbeddingFacts.loaded_candidates in Hst as (H1 & H2 & _).
  simpl in H1, H2.
  replace {| features := features kb |} with kb in * by now destruct kb.
  rewrite H1, H2, <- Hc, <- Ht. auto.
Qed.

Lemma prepare_candidates_again_doubles_witness :
  exists self',
    Embedding.prepare_candidates (embedding_of kb_two) = Ok self' /\
    Embedding.candidates self' =
      Embedding.candidates (embedding_of kb_two) ++
      Embedding.candidates (embedding_of kb_two) /\
    Embedding.candidate_texts self' =
      Embedding.candidate_texts (embedding_of kb_two) ++
      Embedding.candidate_texts (embedding_of kb_two) /\
    Embedding.candidate_embeddings self' =
      Some (Embedding.encode
              (Embedding.candidate_texts (embedding_of kb_two) ++
               Embedding.candidate_texts (embedding_of kb_two))).
Proof.
  apply (prepare_candidates_again_doubles (model := length_model) kb_two
           (embedding_of kb_two)).
  reflexivity.
Defined.

(** ** The results of the embedding matcher *)

Lemma description_first fs name d :
  get_page_description_in fs name = Ok d ->
  d = match find (fun f => has_name f name) fs with
      | Some f => match description f with Some d' => d' | None => "" end
      | None => ""
      end.
Proof.
  induction fs as [| f fs IH]; simpl.
  - now intros [= <-].
  - unfold get_page_name, has_name.
    destruct (page_name f) as [p |]; simpl; [| discriminate].
    destruct (String.eqb p name); [now intros [= <-] | exact IH].
Qed.

Lemma embedding_result_description {model : SentenceModel} kb self row idx r :
  Embedding.init kb = Ok self -> Embedding.make_result self row idx = Ok r ->
  r_description r = first_description kb (r_page_name r).
Proof.
  intros Hinit H.
  destruct (EmbeddingFacts.init_ok kb self Hinit) as (Hkb & _).
  unfold Embedding.make_result in H.
  apply bind_ok in H as (p & _ & H). apply bind_ok in H as (k & _ & H).
  apply bind_ok in H as (s & _ & H). apply bind_ok in H as (d & Hd & H).
  injection H as <-. simpl.
  unfold get_page_description in Hd. rewrite Hkb in Hd.
  now apply description_first.
Qed.



Lemma StronglySorted_Forall2 {A B : Type} (R : A -> B -> Prop)
  (P : A -> A -> Prop) (P' : B -> B -> Prop) l l' :
  (forall x y a b, R x a -> R y b -> P x y -> P' a b) ->
  Forall2 R l l' -> StronglySorted P l -> StronglySorted P' l'.
Proof.
  intros HP HF. induction HF as [| x a l l' Hxa HF IH]; intros Hs;
    [constructor |].
  inversion Hs as [| ? ? Hl Hx]; subst. constructor; [auto |].
  apply Forall_forall. intros b Hb.
  destruct (Forall2_In_r _ _ _ b HF Hb) as (y & Hy & Hyb).
  rewrite Forall_forall in Hx. eauto.
Qed.

(** X7: the results of the embedding matcher are in non-increasing order
    of score: no result has a smaller score than a later one.  The scores
    are taken to be ordered like numbers. *)
Theorem embedding_scores_descending {model : SentenceModel}
  (sim_ltb_asym : forall a b, sim_ltb a b = true -> sim_ltb b a = false)
  (sim_ltb_negtrans :
     forall a b c, sim_ltb a b = false -> sim_ltb b c = false ->
                   sim_ltb a c = false)
  kb self query_text rs :
  Embedding.init kb = Ok self ->
  Embedding.predict_page self query_text = Ok rs ->
  StronglySorted
    (fun a b => sim_ltb (r_similarity_score a) (r_similarity_score b) = false)
    rs.
Proof.
  intros Hinit Hrs.
  destruct (EmbeddingFacts.predict_page_inv kb self query_text rs Hinit Hrs)
    as (_ & HF).
  refine (StronglySorted_Forall2 _ _ _ _ _ _ HF
            (EmbeddingOrder.top_indices_sorted sim_ltb_asym sim_ltb_negtrans
               (similarities self query_text))).
  intros i j a b Hia Hjb Hij.
  apply (EmbeddingFacts.embedding_make_result_fields kb self _ i a Hinit)
    in Hia as (_ & Hi).
  apply (EmbeddingFacts.embedding_make_result_fields kb self _ j b Hinit)
    in Hjb as (_ & Hj).
  destruct Hij as (si & sj & Hsi & Hsj & Hge & _). congruence.
Qed.

Lemma embedding_scores_descending_witness :
  StronglySorted
    (fun a b =>
       sim_ltb (SentenceModel := length_model)
               (r_similarity_score a) (r_similarity_score b) = false)
    (match Embedding.predict_page (embedding_of kb_twice) "rice" with
     | Ok rs => rs
     | Raise _ => []
     end).
Proof.
  apply (embedding_scores_descending (model := length_model))
    with (kb := kb_twice) (self := embedding_of kb_twice)
         (query_text := "rice").
  - intros a b H. simpl in *. apply Z.ltb_lt in H. apply Z.ltb_ge. lia.
  - intros a b c H1 H2. simpl in *.
    apply Z.ltb_ge in H1, H2. apply Z.ltb_ge. lia.
  - reflexivity.
  - reflexivity.
Defined.

(** ** The results of the lexical matcher *)

Lemma insert_desc_sorted {A : Type} (x : A * nat) l :
  StronglySorted (fun a b : A * nat => snd b <= snd a) l ->
  StronglySorted (fun a b : A * nat => snd b <= snd a) (insert_desc x l).
Proof.
  induction 1 as [| y l Hl IH Hy]; simpl.
  - constructor; constructor.
  - destruct (Nat.ltb_spec (snd x) (snd y)) as [Hlt | Hge].
    + constructor; [exact IH |].
      apply (Permutation_Forall (Permutation_sym (insert_desc_perm x l))).
      constructor; [lia | exact Hy].
    + constructor; [now constructor |].
      constructor; [exact Hge |].
      rewrite Forall_forall in Hy |- *. intros z Hz.
      specialize (Hy z Hz). simpl in Hy. lia.
Qed.

Lemma sorted_desc_sorted {A : Type} (l : list (A * nat)) :
  StronglySorted (fun a b : A * nat => snd b <= snd a) (sorted_desc l).
Proof.
  induction l as [| x l IH]; simpl; [constructor |].
  now apply insert_desc_sorted.
Qed.

Lemma normalize_le n1 n2 m :
  n2 <= n1 -> (Simple.normalize n2 m <= Simple.normalize n1 m)%Q.
Proof.
  intros H. unfold Simple.normalize, Qle. simpl.
  apply Z.mul_le_mono_nonneg_r; lia.
Qed.

(** X8: the results of the lexical matcher are in non-increasing order of
    score. *)
Theorem lexical_scores_descending {py : PyStr} kb self query_text rs :
  Simple.init kb = Ok self -> Simple.predict_page self query_text = Ok rs ->
  StronglySorted
    (fun a b => (r_similarity_score b <= r_similarity_score a)%Q) rs.
Proof.
  intros Hinit Hrs.
  refine (StronglySorted_Forall2 _ _ _ _ _ _
            (SimpleHits.result_items kb self query_text rs Hinit Hrs)
            (StronglySorted_firstn _ 5 _ (sorted_desc_sorted _))).
  intros x y a b Hxa Hyb Hxy. simpl in Hxa, Hyb, Hxy.
  apply SimplePredict.lexical_make_result_fields in Hxa as (_ & -> & _).
  apply SimplePredict.lexical_make_result_fields in Hyb as (_ & -> & _).
  now apply normalize_le.
Qed.

Lemma lexical_scores_descending_witness :
  StronglySorted
    (fun a b => (r_similarity_score b <= r_similarity_score a)%Q)
    (match Simple.predict_page (py := ascii_str) (simple_of kb_twice)
                               "crop grain"
     with
     | Ok rs => rs
     | Raise _ => []
     end).
Proof.
  apply (lexical_scores_descending (py := ascii_str) kb_twice
           (simple_of kb_twice) "crop grain"); reflexivity.
Defined.

Lemma list_sum_bound {A : Type} (f : A -> nat) (bound : nat) l :
  (forall x, f x <= bound) -> list_sum (map f l) <= List.length l * bound.
Proof.
  intros Hf. induction l as [| x l IH]; simpl; [lia |].
  specialize (Hf x). lia.
Qed.

Lemma filter_length_bound {A : Type} (f : A -> bool) l :
  List.length (filter f l) <= List.length l.
Proof.
  induction l as [| x l IH]; simpl; [lia |].
  destruct (f x); simpl; lia.
Qed.

(** X9: a score of the lexical matcher is not a similarity in [0, 1]: it
    lies between 0 and the number of keyword occurrences of the page,
    since every query word can hit every keyword of the page. *)
Theorem lexical_score_bounds {py : PyStr} kb self query_text rs r :
  Simple.init kb = Ok self -> Simple.predict_page self query_text = Ok rs ->
  In r rs ->
  (0 <= r_similarity_score r)%Q /\
  (r_similarity_score r <=
   inject_Z (Z.of_nat
               (List.length (page_keyword_occurrences kb (r_page_name r)))))%Q.
Proof.
  intros Hinit Hrs Hr.
  destruct (SimpleHits.result_scored kb self query_text rs r Hinit Hrs Hr)
    as (n & Hin & ->).
  destruct (SimplePredict.scored_item kb self query_text _ n Hinit Hin)
    as (Hn & _).
  assert (Hbound : n <= List.length (Simple.query_words_of query_text) *
                        List.length (page_keyword_occurrences
                                       kb (r_page_name r))).
  { rewrite Hn. unfold hit_count, Simple.query_words_of.
    apply list_sum_bound. intros w. apply filter_length_bound. }
  unfold Simple.normalize, Qle. simpl. split; [lia |].
  set (m := List.length (Simple.query_words_of query_text)) in *.
  set (L := List.length (page_keyword_occurrences kb (r_page_name r))) in *.
  assert (Hpos : Z.pos (Pos.of_nat (Nat.max m 1)) = Z.of_nat (Nat.max m 1)).
  { destruct (Nat.max m 1) as [| k] eqn:Hk; [lia |].
    rewrite <- Pos.of_nat_succ. lia. }
  rewrite Hpos. nia.
Qed.

Lemma lexical_score_bounds_witness :
  exists r rs,
    Simple.predict_page (py := ascii_str) (simple_of kb_twice) "crop rain"
    = Ok (r :: rs) /\
    (0 <= r_similarity_score r)%Q /\
    (r_similarity_score r <=
     inject_Z (Z.of_nat
                 (List.length
                    (page_keyword_occurrences kb_twice (r_page_name r)))))%Q.
Proof.
  eexists. eexists. split; [reflexivity |].
  eapply (lexical_score_bounds (py := ascii_str) kb_twice
            (simple_of kb_twice) "crop rain");
    [reflexivity | reflexivity | now left].
Defined.

Lemma str_in_empty_r w : str_in w "" = true -> w = "".
Proof. destruct w; [reflexivity | discriminate]. Qed.

Lemma str_in_empty_l s : str_in "" s = true.
Proof. destruct s; reflexivity. Qed.

(** The search for the reported keyword, as a function of the keyword
    list: the first keyword that contains a query word, else the first
    keyword, else the empty string. *)
Lemma matching_keyword_first {py : PyStr} words ks :
  str_lower "" = "" ->
  Simple.matching_keyword words ks =
  match find (word_in_keyword words) ks with
  | Some k => k
  | None => hd "" ks
  end.
Proof.
  intros Hlower. unfold Simple.matching_keyword.
  fold (word_in_keyword words).
  destruct (find (word_in_keyword words) ks) as [k |] eqn:Hfind.
  - destruct ks as [| k0 ks]; [discriminate |].
    destruct (String.eqb_spec k "") as [-> | Hne]; [| reflexivity].
    destruct (find_some _ _ Hfind) as [_ Hk].
    unfold word_in_keyword in Hk. apply existsb_exists in Hk as (w & Hw & Hin).
    rewrite Hlower in Hin. apply str_in_empty_r in Hin. subst w.
    assert (H0 : word_in_keyword words k0 = true).
    { unfold word_in_keyword. apply existsb_exists.
      exists "". split; [exact Hw | apply str_in_empty_l]. }
    simpl in Hfind. rewrite H0 in Hfind. now injection Hfind as ->.
  - destruct ks as [| k0 ks]; reflexivity.
Qed.

(** X10: the keyword the lexical matcher reports for a page is the first
    keyword, in the list of the last feature of that name, of which some
    query word is a substring; when there is none it is the first keyword
    of that list, and the empty string when the list is empty.  A keyword
    that is itself a substring of a query word does not count here, though
    it scores. *)
Theorem lexical_reported_keyword {py : PyStr} kb self query_text rs r :
  str_lower "" = "" ->
  Simple.init kb = Ok self -> Simple.predict_page self query_text = Ok rs ->
  In r rs ->
  exists ks,
    last_keywords kb (r_page_name r) = Some ks /\
    r_keyword r =
    match find (word_in_keyword (str_split (str_lower query_text))) ks with
    | Some k => k
    | None => hd "" ks
    end.
Proof.
  intros Hlower Hinit Hrs Hr.
  destruct (Forall2_In_r _ _ _ r
              (SimpleHits.result_items kb self query_text rs Hinit Hrs) Hr)
    as (item & _ & Hmk).
  apply SimplePredict.lexical_make_result_fields in Hmk
    as (Hp & _ & ks & Hks & Hk).
  exists ks. rewrite Hp, Hk. split.
  - destruct (simple_init_state kb self Hinit) as (st & Hst & _ & Hpk).
    destruct (IndexFacts.loaded_index (features kb) _ _ Hst)
      as (_ & _ & _ & Hlast).
    specialize (Hlast (fst item)). simpl in Hlast.
    replace {| features := features kb |} with kb in * by now destruct kb.
    rewrite Hpk, Hlast in Hks.
    now destruct (last_keywords kb (fst item)).
  - now apply matching_keyword_first.
Qed.

Lemma lexical_reported_keyword_witness :
  exists r rs ks,
    Simple.predict_page (py := ascii_str) (simple_of kb_twice) "crops"
    = Ok (r :: rs) /\
    last_keywords kb_twice (r_page_name r) = Some ks /\
    r_keyword r =
    match find (word_in_keyword (py := ascii_str)
                  (str_split (PyStr := ascii_str)
                             (str_lower (PyStr := ascii_str) "crops")))
               ks with
    | Some k => k
    | None => hd "" ks
    end.
Proof.
  eexists. eexists.
  destruct (lexical_reported_keyword (py := ascii_str) kb_twice
              (simple_of kb_twice) "crops" _ _
              eq_refl eq_refl eq_refl (or_introl eq_refl))
    as (ks & Hlast & Hk).
  exists ks. split; [reflexivity |]. split; [exact Hlast | exact Hk].
Defined.

Lemma lexical_result_description {py : PyStr} kb self words item r :
  Simple.init kb = Ok self -> Simple.make_result self words item = Ok r ->
  r_description r = first_description kb (r_page_name r).
Proof.
  intros Hinit H.
  destruct (SimplePredict.loaded_features kb self Hinit) as [Hkb _].
  unfold Simple.make_result in H.
  apply bind_ok in H as (ks & _ & H). apply bind_ok in H as (d & Hd & H).
  injection H as <-. simpl.
  unfold get_page_description in Hd. rewrite Hkb in Hd.
  now apply description_first.
Qed.

(** X11: in both matchers the description of a result is the description
    of the first feature of the catalog with the result's page name, and
    the empty string when that feature has none. *)
Theorem result_description_of_first_feature
  {py : PyStr} {model : SentenceModel} kb query_text :
  (forall self rs r,
     Simple.init kb = Ok self ->
     Simple.predict_page self query_text = Ok rs -> In r rs ->
     r_description r = first_description kb (r_page_name r)) /\
  (forall self rs r,
     Embedding.init kb = Ok self ->
     Embedding.predict_page self query_text = Ok rs -> In r rs ->
     r_description r = first_description kb (r_page_name r)).
Proof.
  split; intros self rs r Hinit Hrs Hr.
  - destruct (Forall2_In_r _ _ _ r
                (SimpleHits.result_items kb self query_text rs Hinit Hrs) Hr)
      as (item & _ & Hmk).
    now apply lexical_result_description with self
                (Simple.query_words_of query_text) item.
  - destruct (EmbeddingFacts.predict_page_inv kb self query_text rs Hinit Hrs)
      as (_ & HF).
    destruct (Forall2_In_r _ _ _ r HF Hr) as (idx & _ & Hmk).
    now apply embedding_result_description
      with self (similarities self query_text) idx.
Qed.

Lemma result_description_of_first_feature_witness :
  exists r rs,
    Simple.predict_page (py := ascii_str) (simple_of kb_twice) "grain"
    = Ok (r :: rs) /\
    r_description r = first_description kb_twice (r_page_name r).
Proof.
  eexists. eexists. split; [reflexivity |].
  eapply (proj1 (result_description_of_first_feature
                   (py := ascii_str) (model := length_model)
                   kb_twice "grain") (simple_of kb_twice));
    [reflexivity | reflexivity | now left].
Defined.

(** ** The prediction routes *)

Lemma lexical_predict_head {py : PyStr} kb self query_text :
  Simple.init kb = Ok self -> features kb <> [] ->
  exists r rs, Simple.predict_page self query_text = Ok (r :: rs).
Proof.
  intros Hinit Hne.
  destruct (SimplePredict.predict_page_items kb self query_text Hinit)
    as (rs & Hrs & _).
  pose proof (result_length kb self query_text rs Hinit Hrs) as Hlen.
  pose proof (scored_nonempty kb self query_text Hinit Hne) as Hsc.
  destruct rs as [| r rs]; [| eauto].
  destruct (scored self query_text); [congruence | simpl in Hlen; lia].
Qed.



(** X13: the routes of the embedding application answer a query they
    accept with 500 when the catalog has no keyword at all (the exception
    of [predict_page] is caught), and with 200 and a top prediction
    otherwise. *)
Theorem embedding_respond {model : SentenceModel} kb self query_text :
  Embedding.init kb = Ok self ->
  (catalog_candidates kb = [] ->
   respond (Embedding.predict_page self) query_text
   = (ExceptionBody (Engine ValueError), 500)) /\
  (catalog_candidates kb <> [] ->
   exists r rs,
     Embedding.predict_page self query_text = Ok (r :: rs) /\
     respond (Embedding.predict_page self) query_text
     = (PredictionBody query_text (r :: rs) (Some r), 200)).
Proof.
  intros Hinit. unfold respond. split.
  - intros Hnil.
    now rewrite (EmbeddingFacts.predict_page_no_candidates
                   kb self query_text Hinit Hnil).
  - intros Hc.
    destruct (EmbeddingFacts.predict_page_indices kb self query_text Hinit Hc)
      as (rs & Hrs & HF).
    apply Forall2_length_eq in HF.
    rewrite EmbeddingFacts.top_indices_length in HF.
    rewrite (EmbeddingFacts.similarities_length kb self query_text Hinit)
      in HF.
    destruct rs as [| r rs].
    + destruct (catalog_candidates kb); [congruence | simpl in HF; lia].
    + exists r, rs. rewrite Hrs. auto.
Qed.

Lemma embedding_respond_witness :
  respond (Embedding.predict_page (embedding_of kb_unused)) "rice"
  = (ExceptionBody (Engine ValueError), 500).
Proof.
  apply (proj1 (embedding_respond (model := length_model) kb_unused
                  (embedding_of kb_unused) "rice" eq_refl)).
  reflexivity.
Defined.

(** X14: the GET route of the lexical application only rejects the empty
    string.  A query without a word (white space only) is answered with
    200: the first five pages of the catalog with score 0, the first page
    as top prediction; the POST route answers the same query with 400. *)
Theorem lexical_get_route_blank_query {py : PyStr} {strip : PyStrip}
  kb self args query_text :
  Simple.init kb = Ok self -> features kb <> [] ->
  dict_get args "query" = Some query_text -> query_text <> "" ->
  str_split (str_lower query_text) = [] -> str_strip query_text = "" ->
  (exists r rs,
     predict_get (Simple.predict_page self) args
     = (PredictionBody query_text (r :: rs) (Some r), 200) /\
     map (@r_page_name Q) (r :: rs) =
       firstn 5 (first_occurrences [] (page_names kb)) /\
     Forall (fun r' => (r_similarity_score r' == 0)%Q)
            (r :: rs)) /\
  predict (Simple.predict_page self) (Some [("query", JString query_text)])
  = (ErrorBody "Query text cannot be empty", 400).
Proof.
  intros Hinit Hne Hq Hnonempty Hwords Hblank. split.
  - unfold predict_get, respond. rewrite Hq.
    destruct (String.eqb_spec query_text "") as [Hempty | _];
      [contradiction |].
    destruct (lexical_predict_head kb self query_text Hinit Hne)
      as (r & rs & Hrs).
    rewrite Hrs. exists r, rs. split; [reflexivity |].
    assert (Hno : no_match kb query_text).
    { intros word f keyword Hw. rewrite Hwords in Hw. contradiction. }
    split.
    + now apply no_match_result_names with self query_text.
    + apply Forall_forall. intros r' Hr'.
      destruct (SimpleHits.result_scored kb self query_text _ r' Hinit Hrs Hr')
        as (hits & Hin & ->).
      destruct (SimplePredict.scored_item kb self query_text _ hits Hinit Hin)
        as (-> & _).
      rewrite (SimpleHits.no_match_no_hits kb query_text _ Hno).
      reflexivity.
  - unfold predict. simpl. now rewrite Hblank.
Qed.

Lemma lexical_get_route_blank_query_witness :
  (exists r rs,
     predict_get (Simple.predict_page (py := ascii_str) (simple_of kb_two))
                 [("query", "  ")]
     = (PredictionBody "  " (r :: rs) (Some r), 200) /\
     map (@r_page_name Q) (r :: rs) =
       firstn 5 (first_occurrences [] (page_names kb_two)) /\
     Forall (fun r' => (r_similarity_score r' == 0)%Q)
            (r :: rs)) /\
  predict (strip := ascii_strip)
          (Simple.predict_page (py := ascii_str) (simple_of kb_two))
          (Some [("query", JString "  ")])
  = (ErrorBody "Query text cannot be empty", 400).
Proof.
  apply (lexical_get_route_blank_query (py := ascii_str)
           (strip := ascii_strip) kb_two (simple_of kb_two)
           [("query", "  ")] "  ");
    try reflexivity; simpl; discriminate.
Defined.

(** ** The pages and statistics routes *)

Lemma get_pages_loop fs :
  Forall (fun f => exists p ks, page_name f = Some p /\ keywords f = Some ks)
         fs ->
  forall acc, exists pages,
    for_each
      (fun pages feature =>
         p <- get_page_name feature ;;
         ks <- get_keywords feature ;;
         Ok (pages ++
             [{| pi_page_name := p;
                 pi_keywords := ks;
                 pi_description :=
                   match description feature with
                   | Some d => d
                   | None => ""
                   end;
                 pi_action_message :=
                   match action_message feature with
                   | Some m => m
                   | None => ""
                   end |}]))
      fs acc = Ok (acc ++ pages) /\
    map pi_page_name pages =
      flat_map (fun f => match page_name f with Some p => [p] | None => [] end)
               fs /\
    map pi_keywords pages = map keywords_of fs /\
    map pi_description pages =
      map (fun f => match description f with Some d => d | None => "" end) fs.
Proof.
  induction 1 as [| f fs (p & ks & Hp & Hk) _ IH]; intros acc.
  - exists []. simpl. now rewrite app_nil_r.
  - simpl for_each. unfold get_page_name at 1, get_keywords at 1.
    rewrite Hp, Hk. simpl bind.
    destruct (IH (acc ++
                  [{| pi_page_name := p;
                      pi_keywords := ks;
                      pi_description :=
                        match description f with
                        | Some d => d
                        | None => ""
                        end;
                      pi_action_message :=
                        match action_message f with
                        | Some m => m
                        | None => ""
                        end |}]))
      as (pages & Hloop & Hn & Hks & Hd).
    assert (Hko : keywords_of f = ks) by (unfold keywords_of; now rewrite Hk).
    eexists (_ :: pages). rewrite Hloop, <- app_assoc. simpl.
    rewrite Hn, Hks, Hd, Hp, Hko. auto.
Qed.

(** X15: on a catalog the constructor accepts, [get_pages] does not raise
    and lists every feature, in catalog order and without merging
    features of the same name: the names are the page names of the
    catalog, the keyword lists those of the features, and a missing
    description is the empty string. *)
Theorem get_pages_lists_every_feature kb self :
  Simple.init kb = Ok self ->
  exists pages,
    get_pages kb = Ok pages /\
    List.length pages = List.length (features kb) /\
    map pi_page_name pages = page_names kb /\
    map pi_keywords pages = map keywords_of (features kb) /\
    map pi_description pages =
      map (fun f => match description f with Some d => d | None => "" end)
          (features kb).
Proof.
  intros Hinit.
  destruct (SimplePredict.loaded_features kb self Hinit) as [_ Hwf].
  destruct (get_pages_loop (features kb) Hwf []) as (pages & Hp & Hn & Hk & Hd).
  exists pages. split; [exact Hp |]. split; [| auto].
  rewrite <- (length_map pi_keywords), Hk. apply length_map.
Qed.

Lemma get_pages_lists_every_feature_witness :
  exists pages,
    get_pages kb_twice = Ok pages /\
    List.length pages = List.length (features kb_twice) /\
    map pi_page_name pages = page_names kb_twice /\
    map pi_keywords pages = map keywords_of (features kb_twice) /\
    map pi_description pages =
      map (fun f => match description f with Some d => d | None => "" end)
          (features kb_twice).
Proof.
  apply (get_pages_lists_every_feature kb_twice (simple_of kb_twice)).
  reflexivity.
Defined.

Lemma keyword_lengths_loop_inv fs :
  forall acc out,
    for_each (fun counts feature =>
                ks <- get_keywords feature ;; Ok (counts ++ [List.length ks]))
             fs acc = Ok out ->
    out = acc ++ map (fun f => List.length (keywords_of f)) fs.
Proof.
  induction fs as [| f fs IH]; simpl; intros acc out H.
  - injection H as <-. now rewrite app_nil_r.
  - apply bind_ok in H as (acc' & H1 & H2).
    apply bind_ok in H1 as (ks & Hks & [= <-]).
    rewrite (IH _ _ H2), <- app_assoc. simpl.
    unfold get_keywords in Hks. unfold keywords_of at 2.
    destruct (keywords f); [now injection Hks as -> | discriminate].
Qed.

Lemma keyword_lengths_total fs :
  Forall (fun f => exists p ks, page_name f = Some p /\ keywords f = Some ks)
         fs ->
  forall acc, exists out,
    for_each (fun counts feature =>
                ks <- get_keywords feature ;; Ok (counts ++ [List.length ks]))
             fs acc = Ok out.
Proof.
  induction 1 as [| f fs (p & ks & _ & Hk) _ IH]; simpl; intros acc; [eauto |].
  unfold get_keywords at 1. rewrite Hk. simpl. apply IH.
Qed.

Lemma get_stats_inv kb st :
  get_stats kb = Ok st ->
  let counts := map (fun f => List.length (keywords_of f)) (features kb) in
  total_pages st = List.length (features kb) /\
  total_keywords st = list_sum counts /\
  avg_keywords_per_page st =
    (if 0 <? List.length (features kb)
     then Qmake (Z.of_nat (list_sum counts))
                (Pos.of_nat (List.length (features kb)))
     else 0%Q) /\
  kd_min st = py_min counts /\ kd_max st = py_max counts /\
  kd_median st = match counts with [] => 0%Q | _ :: _ => np_median counts end.
Proof.
  unfold get_stats, keyword_lengths. intros H.
  apply bind_ok in H as (l1 & H1 & H). apply bind_ok in H as (l2 & H2 & H).
  apply keyword_lengths_loop_inv in H1, H2. simpl in H1, H2. subst l1 l2.
  injection H as <-. simpl.
  destruct (map (fun f => List.length (keywords_of f)) (features kb));
    repeat split; reflexivity.
Qed.

Lemma candidates_count fs :
  Forall (fun f => exists p ks, page_name f = Some p /\ keywords f = Some ks)
         fs ->
  list_sum (map (fun f => List.length (keywords_of f)) fs) =
  List.length (catalog_candidates {| features := fs |}).
Proof.
  unfold catalog_candidates. simpl.
  induction 1 as [| f fs (p & ks & Hp & _) _ IH]; simpl; [reflexivity |].
  now rewrite Hp, length_app, length_map, IH.
Qed.

(** X16: on a catalog the constructors accept, [get_stats] does not
    raise; [total_pages] counts the features, and [total_keywords] is the
    number of candidates the embedding matcher holds and the number of
    page entries in the lexical matcher's [keyword_to_page]. *)
Theorem get_stats_totals {model : SentenceModel} kb lexical semantic :
  Simple.init kb = Ok lexical -> Embedding.init kb = Ok semantic ->
  exists st,
    get_stats kb = Ok st /\
    total_pages st = List.length (features kb) /\
    total_keywords st = List.length (Embedding.candidates semantic) /\
    total_keywords st = entries (Simple.keyword_to_page lexical).
Proof.
  intros Hlex Hsem.
  destruct (SimplePredict.loaded_features kb lexical Hlex) as [_ Hwf].
  assert (Hst : exists st, get_stats kb = Ok st).
  { unfold get_stats, keyword_lengths.
    destruct (keyword_lengths_total (features kb) Hwf []) as (out & ->).
    simpl. eauto. }
  destruct Hst as (st & Hst). exists st. split; [exact Hst |].
  destruct (get_stats_inv kb st Hst) as (Hpages & Hkw & _).
  rewrite Hkw, (candidates_count (features kb) Hwf).
  replace {| features := features kb |} with kb by now destruct kb.
  split; [exact Hpages |]. split.
  - destruct (EmbeddingFacts.init_ok kb semantic Hsem) as (_ & -> & _).
    now rewrite length_map.
  - destruct (simple_init_state kb lexical Hlex) as (s & Hs & -> & _).
    destruct (IndexFacts.loaded_index (features kb) _ _ Hs)
      as (_ & _ & Hent & _).
    simpl in Hent.
    replace {| features := features kb |} with kb in Hent by now destruct kb.
    rewrite Hent. reflexivity.
Qed.

Lemma get_stats_totals_witness :
  exists st,
    get_stats kb_twice = Ok st /\
    total_pages st = List.length (features kb_twice) /\
    total_keywords st
    = List.length (Embedding.candidates (embedding_of kb_twice)) /\
    total_keywords st = entries (Simple.keyword_to_page (simple_of kb_twice)).
Proof.
  apply (get_stats_totals (model := length_model) kb_twice
           (simple_of kb_twice) (embedding_of kb_twice)); reflexivity.
Defined.

Lemma fold_min_le l :
  forall a, fold_left Nat.min l a <= a /\
            forall x, In x l -> fold_left Nat.min l a <= x.
Proof.
  induction l as [| y l IH]; simpl; intros a; [split; [lia | tauto] |].
  destruct (IH (Nat.min a y)) as [H1 H2]. split; [lia |].
  intros x [<- | Hx]; [lia | auto].
Qed.

Lemma fold_max_ge l :
  forall a, a <= fold_left Nat.max l a /\
            forall x, In x l -> x <= fold_left Nat.max l a.
Proof.
  induction l as [| y l IH]; simpl; intros a; [split; [lia | tauto] |].
  destruct (IH (Nat.max a y)) as [H1 H2]. split; [lia |].
  intros x [<- | Hx]; [lia | auto].
Qed.

Lemma py_min_max_bounds l x :
  In x l -> py_min l <= x <= py_max l.
Proof.
  destruct l as [| a l]; [contradiction |]. simpl.
  destruct (fold_min_le l a) as [Hmin1 Hmin2].
  destruct (fold_max_ge l a) as [Hmax1 Hmax2].
  intros [<- | Hx]; split; auto.
Qed.

Lemma list_sum_between lo hi l :
  (forall x, In x l -> lo <= x <= hi) ->
  lo * List.length l <= list_sum l <= hi * List.length l.
Proof.
  induction l as [| y l IH]; simpl; intros H; [lia |].
  specialize (IH (fun x Hx => H x (or_intror Hx))).
  specialize (H y (or_introl eq_refl)). lia.
Qed.

Lemma insert_nat_perm x l : Permutation (insert_nat x l) (x :: l).
Proof.
  induction l as [| y l IH]; simpl; [reflexivity |].
  destruct (x <=? y); [reflexivity |].
  rewrite IH. apply perm_swap.
Qed.

Lemma sort_nat_perm l : Permutation (sort_nat l) l.
Proof.
  induction l as [| x l IH]; simpl; [reflexivity |].
  rewrite insert_nat_perm. now constructor.
Qed.

(** The median lies between any bounds of the entries. *)
Lemma np_median_between lo hi l :
  l <> [] -> (forall x, In x l -> lo <= x <= hi) ->
  (inject_Z (Z.of_nat lo) <= np_median l)%Q /\
  (np_median l <= inject_Z (Z.of_nat hi))%Q.
Proof.
  intros Hne Hb. unfold np_median.
  pose proof (sort_nat_perm l) as Hperm.
  assert (Hlen : 0 < List.length (sort_nat l)).
  { rewrite (Permutation_length Hperm). destruct l; [congruence | simpl; lia]. }
  assert (Hnth : forall i, i < List.length (sort_nat l) ->
                           lo <= nth i (sort_nat l) 0 <= hi).
  { intros i Hi. apply Hb, (Permutation_in _ Hperm), nth_In, Hi. }
  set (n := List.length (sort_nat l)) in *.
  assert (Hhalf : n / 2 < n) by (apply Nat.div_lt; lia).
  destruct (Nat.even n) eqn:He.
  - pose proof (Hnth (n / 2) Hhalf) as H1.
    assert (Hprev : n / 2 - 1 < n) by (generalize dependent (n / 2); lia).
    pose proof (Hnth (n / 2 - 1) Hprev) as H2.
    set (a := nth (n / 2 - 1) (sort_nat l) 0) in *.
    set (b := nth (n / 2) (sort_nat l) 0) in *.
    clearbody a b. unfold Qle. simpl. lia.
  - pose proof (Hnth (n / 2) Hhalf) as H1.
    set (b := nth (n / 2) (sort_nat l) 0) in *.
    clearbody b. unfold Qle. simpl. lia.
Qed.

(** X17: whenever [get_stats] returns, an empty catalog gives zero in
    every field (no division by zero, no [min] of an empty list), and a
    catalog with a page gives a minimum, an average and a median of the
    keyword counts with [min <= avg <= max] and [min <= median <= max]. *)
Theorem get_stats_bounds kb st :
  get_stats kb = Ok st ->
  (features kb = [] ->
   total_pages st = 0 /\ total_keywords st = 0 /\
   (avg_keywords_per_page st == 0)%Q /\
   kd_min st = 0 /\ kd_max st = 0 /\ (kd_median st == 0)%Q) /\
  (features kb <> [] ->
   kd_min st <= kd_max st /\
   (inject_Z (Z.of_nat (kd_min st)) <= avg_keywords_per_page st)%Q /\
   (avg_keywords_per_page st <= inject_Z (Z.of_nat (kd_max st)))%Q /\
   (inject_Z (Z.of_nat (kd_min st)) <= kd_median st)%Q /\
   (kd_median st <= inject_Z (Z.of_nat (kd_max st)))%Q).
Proof.
  intros Hst.
  destruct (get_stats_inv kb st Hst) as (Hp & Hk & Ha & Hmin & Hmax & Hmed).
  simpl in *. rewrite Hp, Hk, Ha, Hmin, Hmax, Hmed. clear.
  split.
  - intros ->. simpl. repeat split; reflexivity.
  - intros Hne.
    set (counts := map (fun f => List.length (keywords_of f)) (features kb)).
    assert (Hlen : List.length counts = List.length (features kb))
      by apply length_map.
    assert (Hc : counts <> []).
    { intros Hnil. rewrite Hnil in Hlen. destruct (features kb);
        [congruence | discriminate]. }
    pose proof (py_min_max_bounds counts) as Hb.
    destruct (np_median_between (py_min counts) (py_max counts) counts Hc Hb)
      as [Hm1 Hm2].
    pose proof (list_sum_between (py_min counts) (py_max counts) counts Hb)
      as Hsum.
    rewrite Hlen in Hsum.
    assert (Hpos : 0 < List.length (features kb)).
    { destruct (features kb); [congruence | simpl; lia]. }
    destruct (Nat.ltb_spec 0 (List.length (features kb))) as [_ | Hle];
      [| lia].
    assert (Hof : Z.pos (Pos.of_nat (List.length (features kb))) =
                  Z.of_nat (List.length (features kb))).
    { destruct (List.length (features kb)) as [| k]; [lia |].
      rewrite <- Pos.of_nat_succ. lia. }
    split; [| split; [| split; [| split]]].
    + destruct counts as [| c cs]; [congruence |].
      destruct (Hb c (or_introl eq_refl)). lia.
    + unfold Qle. simpl. rewrite Hof. nia.
    + unfold Qle. simpl. rewrite Hof. nia.
    + destruct counts; [congruence | exact Hm1].
    + destruct counts; [congruence | exact Hm2].
Qed.

Lemma get_stats_bounds_witness :
  exists st,
    get_stats kb_twice = Ok st /\
    kd_min st <= kd_max st /\
    (inject_Z (Z.of_nat (kd_min st)) <= avg_keywords_per_page st)%Q /\
    (avg_keywords_per_page st <= inject_Z (Z.of_nat (kd_max st)))%Q /\
    (inject_Z (Z.of_nat (kd_min st)) <= kd_median st)%Q /\
    (kd_median st <= inject_Z (Z.of_nat (kd_max st)))%Q.
Proof.
  eexists. split; [reflexivity |].
  apply (proj2 (get_stats_bounds kb_twice _ eq_refl)).
  simpl. discriminate.
Defined.

(** ** The tie-break of the lexical matcher *)

Lemma before_filter {A : Type} (P : A -> bool) x y l :
  before x y l -> P x = true -> P y = true -> before x y (filter P l).
Proof.
  intros (l1 & l2 & l3 & ->) Hx Hy.
  exists (filter P l1), (filter P l2), (filter P l3).
  rewrite filter_app. simpl. rewrite Hx, filter_app. simpl. now rewrite Hy.
Qed.

Lemma before_cons {A : Type} (x y z : A) l :
  before x y l -> before x y (z :: l).
Proof.
  intros (l1 & l2 & l3 & ->). now exists (z :: l1), l2, l3.
Qed.

Lemma before_head {A : Type} (x y : A) l : In y l -> before x y (x :: l).
Proof.
  intros Hy. apply in_split in Hy as (l2 & l3 & ->). now exists [], l2, l3.
Qed.

Lemma before_inv {A : Type} (x y z : A) l :
  before x y (z :: l) -> (z = x /\ In y l) \/ before x y l.
Proof.
  intros ([| z' l1] & l2 & l3 & H); simpl in H; injection H as -> ->.
  - left. split; [reflexivity |]. apply in_or_app. right. now left.
  - right. now exists l1, l2, l3.
Qed.

Lemma before_filter_inv {A : Type} (P : A -> bool) x y l :
  before x y (filter P l) -> before x y l.
Proof.
  induction l as [| z l IH]; simpl; intros H.
  - destruct H as ([| ? ?] & ? & ? & H); discriminate.
  - destruct (P z) eqn:Hz.
    + apply before_inv in H as [[-> Hy] | H].
      * apply before_head. now apply filter_In in Hy.
      * apply before_cons. auto.
    + apply before_cons. auto.
Qed.

(** Sorting moves no item past an item of the same score. *)
Lemma insert_desc_stable {A : Type} (n : nat) (x : A * nat) l :
  filter (fun z => snd z =? n) (insert_desc x l) =
  filter (fun z => snd z =? n) (x :: l).
Proof.
  induction l as [| y l IH]; [reflexivity |].
  simpl insert_desc. destruct (Nat.ltb_spec (snd x) (snd y)) as [Hlt | Hge];
    [| reflexivity].
  simpl in IH |- *. rewrite IH.
  destruct (Nat.eqb_spec (snd x) n) as [Hx | Hx];
    destruct (Nat.eqb_spec (snd y) n) as [Hy | Hy];
    try reflexivity.
  lia.
Qed.

Lemma sorted_desc_stable {A : Type} (n : nat) (l : list (A * nat)) :
  filter (fun z => snd z =? n) (sorted_desc l) =
  filter (fun z => snd z =? n) l.
Proof.
  induction l as [| x l IH]; [reflexivity |].
  simpl sorted_desc. rewrite insert_desc_stable. simpl. now rewrite IH.
Qed.

Lemma normalize_eq n1 n2 m :
  (Simple.normalize n1 m == Simple.normalize n2 m)%Q -> n1 = n2.
Proof.
  unfold Simple.normalize, Qeq. simpl. intros H.
  apply Z.mul_cancel_r in H; lia.
Qed.

(** X18: the tie-break of the lexical matcher.  Of two results with the
    same score, the first is the page that entered the scoring
    dictionary first (for a query without a match: the page that is
    first in the catalog). *)
Theorem lexical_ties_keep_scoring_order {py : PyStr}
  kb self query_text rs a b :
  Simple.init kb = Ok self -> Simple.predict_page self query_text = Ok rs ->
  before a b rs ->
  (r_similarity_score a == r_similarity_score b)%Q ->
  before (r_page_name a) (r_page_name b)
         (dict_keys (scored self query_text)).
Proof.
  intros Hinit Hrs (l1 & l2 & l3 & ->) Hscore.
  pose proof (SimpleHits.result_items kb self query_text _ Hinit Hrs) as HF.
  apply Forall2_app_inv_r in HF as (i1 & i' & _ & HF & Hitems).
  inversion HF as [| x a' i2' l' Hxa HF' Hx]; subst. clear HF.
  apply Forall2_app_inv_r in HF' as (i2 & i'' & _ & HF & ->).
  inversion HF as [| y b' i3 l'' Hyb _ Hy]; subst. clear HF.
  apply SimplePredict.lexical_make_result_fields in Hxa as (Hpa & Hsa & _).
  apply SimplePredict.lexical_make_result_fields in Hyb as (Hpb & Hsb & _).
  rewrite Hsa, Hsb in Hscore. apply normalize_eq in Hscore.
  rewrite Hpa, Hpb.
  assert (Hsorted : before x y (sorted_desc (scored self query_text))).
  { rewrite <- (firstn_skipn 5 (sorted_desc (scored self query_text))).
    rewrite Hitems. exists i1, i2, (i3 ++ skipn 5 (sorted_desc
                                                     (scored self query_text))).
    repeat (rewrite <- app_assoc; simpl). reflexivity. }
  apply (before_filter (fun z => snd z =? snd x)) in Hsorted;
    [| apply Nat.eqb_refl | rewrite Hscore; apply Nat.eqb_refl].
  rewrite sorted_desc_stable in Hsorted.
  apply before_filter_inv in Hsorted as (s1 & s2 & s3 & Hs).
  exists (map fst s1), (map fst s2), (map fst s3).
  unfold dict_keys. rewrite Hs, map_app. simpl. now rewrite map_app.
Qed.

Lemma lexical_ties_keep_scoring_order_witness :
  exists a b rs,
    Simple.predict_page (py := ascii_str) (simple_of kb_twice) "crop"
    = Ok (a :: b :: rs) /\
    before (r_page_name a) (r_page_name b)
           (dict_keys (scored (py := ascii_str) (simple_of kb_twice) "crop")).
Proof.
  eexists. eexists. eexists. split; [reflexivity |].
  eapply (lexical_ties_keep_scoring_order (py := ascii_str) kb_twice
            (simple_of kb_twice) "crop").
  - reflexivity.
  - reflexivity.
  - now exists [], [], [].
  - reflexivity.
Defined.

(** ** Which catalogs load *)

Lemma index_features_total fs :
  Forall (fun f => exists p ks, page_name f = Some p /\ keywords f = Some ks)
         fs ->
  forall st, exists st', for_each Simple.index_feature fs st = Ok st'.
Proof.
  induction 1 as [| f fs (p & ks & Hp & Hk) _ IH]; simpl; intros st; [eauto |].
  unfold Simple.index_feature at 1, get_page_name, get_keywords.
  rewrite Hp, Hk. simpl. apply IH.
Qed.

(** X19: both constructors accept exactly the catalogs in which every
    feature has a [page_name] and a [keywords] key; on any other catalog
    both raise [KeyError], so the two applications start on the same
    catalogs. *)
Theorem constructors_accept_same_catalogs {model : SentenceModel} kb :
  ((exists self, Simple.init kb = Ok self) <->
   Forall (fun f => page_name f <> None /\ keywords f <> None) (features kb)) /\
  ((exists self, Embedding.init kb = Ok self) <->
   Forall (fun f => page_name f <> None /\ keywords f <> None) (features kb)) /\
  ((exists key, Simple.init kb = Raise (KeyError key)) <->
   (exists key, Embedding.init kb = Raise (KeyError key))).
Proof.
  assert (Hwf : forall fs,
             Forall (fun f => exists p ks,
                       page_name f = Some p /\ keywords f = Some ks) fs <->
             Forall (fun f => page_name f <> None /\ keywords f <> None) fs).
  { intros fs. split; intros H; eapply Forall_impl; try exact H;
      intros f.
    - intros (p & ks & -> & ->). split; discriminate.
    - intros [Hp Hk]. destruct (page_name f), (keywords f);
        try contradiction; eauto. }
  assert (Hs : (exists self, Simple.init kb = Ok self) <->
               Forall (fun f => page_name f <> None /\ keywords f <> None)
                      (features kb)).
  { rewrite <- Hwf. split.
    - intros (self & Hinit).
      now destruct (SimplePredict.loaded_features kb self Hinit).
    - intros H. unfold Simple.init, Simple.prepare_keyword_index. simpl.
      destruct (index_features_total (features kb) H ([], [])) as (st & ->).
      simpl. eauto. }
  assert (He : (exists self, Embedding.init kb = Ok self) <->
               Forall (fun f => page_name f <> None /\ keywords f <> None)
                      (features kb)).
  { rewrite <- Hwf. split.
    - intros (self & Hinit).
      now destruct (EmbeddingFacts.init_ok kb self Hinit)
        as (_ & _ & _ & _ & H).
    - intros H. unfold Embedding.init, Embedding.prepare_candidates. simpl.
      destruct (add_features_total (features kb) H ([], [])) as (st & ->).
      simpl. eauto. }
  split; [exact Hs |]. split; [exact He |].
  assert (Hsraise : forall fs st,
             (exists st', for_each Simple.index_feature fs st = Ok st') \/
             exists key, for_each Simple.index_feature fs st
                         = Raise (KeyError key)).
  { induction fs as [| f fs IH]; simpl; intros st; [eauto |].
    unfold Simple.index_feature at 1 3, get_page_name, get_keywords.
    destruct (page_name f); simpl; [| eauto].
    destruct (keywords f); simpl; [apply IH | eauto]. }
  assert (Heraise : forall fs st,
             (exists st', for_each Embedding.add_feature fs st = Ok st') \/
             exists key, for_each Embedding.add_feature fs st
                         = Raise (KeyError key)).
  { induction fs as [| f fs IH]; simpl; intros st; [eauto |].
    unfold Embedding.add_feature at 1 3, get_page_name, get_keywords.
    destruct (page_name f); simpl; [| eauto].
    destruct (keywords f); simpl; [apply IH | eauto]. }
  split.
  - intros (key & Hraise).
    unfold Embedding.init, Embedding.prepare_candidates. simpl.
    destruct (Heraise (features kb) ([], [])) as [(st & Hst) | (k & ->)];
      [| simpl; eauto].
    exfalso.
    assert (Hok : exists self, Embedding.init kb = Ok self).
    { unfold Embedding.init, Embedding.prepare_candidates. simpl.
      rewrite Hst. simpl. eauto. }
    apply He, Hs in Hok as (self & Hinit). congruence.
  - intros (key & Hraise).
    unfold Simple.init, Simple.prepare_keyword_index. simpl.
    destruct (Hsraise (features kb) ([], [])) as [(st & Hst) | (k & ->)];
      [| simpl; eauto].
    exfalso.
    assert (Hok : exists self, Simple.init kb = Ok self).
    { unfold Simple.init, Simple.prepare_keyword_index. simpl.
      rewrite Hst. simpl. eauto. }
    apply Hs, He in Hok as (self & Hinit). congruence.
Qed.
